(** * PerformanceTester: the audit / report pipeline

    A shallow embedding of the browser-side [PerformanceTester] class
    (metrics collection, the thirteen audit checks, score aggregation, the
    recommendation generator, the report and the full test run) and of the
    image scanner's [suggestOptimization], with the properties its
    specification states about it and further properties read off the
    code.

    Modelling conventions.
    - A JavaScript number is a [number]: an exact rational, one of the two
      infinities, or NaN.  Rounding error of IEEE doubles and the sign of
      zero are not modelled; every quantity the checks compute is a small
      integer or a quotient of two small integers.
    - Counters that the code only ever increments by integers ([length],
      [count], [frames], [totalSize]) are kept in [Z] and injected with
      [int] where they enter a floating expression.
    - The document is the list of its elements in document order; the
      selectors the code uses have no combinators, so [querySelectorAll]
      is a filter over that list.
    - An object used as a dictionary keyed by strings is a [gmap]; an
      object whose key order is observed through [Object.values] is an
      association list in insertion order.  Keys are taken not to collide
      with the members every object inherits from [Object.prototype].
    - A property read on [undefined] throws; functions that can do so
      return [option], [None] standing for the TypeError. *)

From stdpp Require Import gmap strings list fin_maps.
From Stdlib Require Import Ascii QArith Qround Qminmax Lqa.

Local Open Scope string_scope.
Local Open Scope Z_scope.
Local Open Scope list_scope.

(* ===================================================================== *)
(** ** JavaScript numbers *)
(* ===================================================================== *)

Module JS.

Inductive number : Type :=
  | Num (q : Q)
  | PosInf
  | NegInf
  | NaN.

Definition int (z : Z) : number := Num (inject_Z z).

(** Equality of numbers as values: rationals up to [Qeq]. *)
Definition num_eq (a b : number) : Prop :=
  match a, b with
  | Num x, Num y => (x == y)%Q
  | PosInf, PosInf | NegInf, NegInf | NaN, NaN => True
  | _, _ => False
  end.

Definition Qlt_bool (x y : Q) : bool := negb (Qle_bool y x).

Definition neg (a : number) : number :=
  match a with
  | Num x => Num (- x)%Q
  | PosInf => NegInf
  | NegInf => PosInf
  | NaN => NaN
  end.

Definition add (a b : number) : number :=
  match a, b with
  | NaN, _ | _, NaN => NaN
  | Num x, Num y => Num (x + y)%Q
  | PosInf, NegInf | NegInf, PosInf => NaN
  | PosInf, _ | _, PosInf => PosInf
  | NegInf, _ | _, NegInf => NegInf
  end.

Definition sub (a b : number) : number := add a (neg b).

(** Sign of a non-NaN number: -1, 0 or 1. *)
Definition sgn (a : number) : Z :=
  match a with
  | Num x => Z.sgn (Qnum x)
  | PosInf => 1
  | NegInf => -1
  | NaN => 0
  end.

Definition inf_of_sign (s : Z) : number :=
  if (s =? 0)%Z then NaN else if (0 <? s)%Z then PosInf else NegInf.

Definition mul (a b : number) : number :=
  match a, b with
  | NaN, _ | _, NaN => NaN
  | Num x, Num y => Num (x * y)%Q
  | _, _ => inf_of_sign (sgn a * sgn b)
  end.

(** [a / b]: a finite quotient, or what IEEE division gives at a zero or
    infinite operand. *)
Definition div (a b : number) : number :=
  match a, b with
  | NaN, _ | _, NaN => NaN
  | Num x, Num y =>
      if Qeq_bool y 0 then inf_of_sign (sgn a) else Num (x / y)%Q
  | Num _, _ => Num 0
  | _, Num y => if Qeq_bool y 0 then a else inf_of_sign (sgn a * sgn b)
  | _, _ => NaN
  end.

(** [a < b]; any comparison with NaN is false. *)
Definition lt (a b : number) : bool :=
  match a, b with
  | NaN, _ | _, NaN => false
  | Num x, Num y => Qlt_bool x y
  | NegInf, NegInf | PosInf, _ => false
  | NegInf, _ => true
  | _, PosInf => true
  | _, NegInf => false
  end.

(** Truthiness of a number: 0 and NaN are falsy. *)
Definition truthy (a : number) : bool :=
  match a with
  | Num x => negb (Qeq_bool x 0)
  | NaN => false
  | _ => true
  end.

(** [Math.round]: the nearest integer, ties towards +infinity. *)
Definition Math_round (a : number) : number :=
  match a with
  | Num x => int (Qfloor (x + (1 # 2))%Q)
  | _ => a
  end.

(** [Math.max] of two arguments. *)
Definition Math_max (a b : number) : number :=
  match a, b with
  | NaN, _ | _, NaN => NaN
  | _, _ => if lt a b then b else a
  end.

(** [v || d] for a possibly absent numeric property. *)
Definition or_default (v : option number) (d : number) : number :=
  match v with
  | Some a => if truthy a then a else d
  | None => d
  end.

(** [undefined < b] is false: [undefined] converts to NaN. *)
Definition opt_lt (v : option number) (b : number) : bool :=
  match v with
  | Some a => lt a b
  | None => false
  end.

(** [s.includes(pat)] *)
Definition includes (s pat : string) : bool :=
  match String.index 0 pat s with
  | Some _ => true
  | None => false
  end.

Definition is_space (c : ascii) : bool :=
  let n := nat_of_ascii c in
  ((9 <=? n) && (n <=? 13))%nat || (n =? 32)%nat.

Fixpoint drop_spaces (l : list ascii) : list ascii :=
  match l with
  | c :: l' => if is_space c then drop_spaces l' else l
  | [] => []
  end.

(** [s.trim()] on an ASCII string. *)
Definition trim (s : string) : string :=
  String.string_of_list_ascii
    (rev (drop_spaces (rev (drop_spaces (String.list_ascii_of_string s))))).

Definition upper_char (c : ascii) : ascii :=
  let n := nat_of_ascii c in
  if ((97 <=? n) && (n <=? 122))%nat then ascii_of_nat (n - 32) else c.

Fixpoint toUpperCase (s : string) : string :=
  match s with
  | EmptyString => EmptyString
  | String c s' => String (upper_char c) (toUpperCase s')
  end.

(** [parseInt] of a one-character string ([None]: the index was out of
    range and the argument is [undefined]). *)
Definition parseInt_char (c : option ascii) : number :=
  match c with
  | Some ch =>
      let n := nat_of_ascii ch in
      if ((48 <=? n) && (n <=? 57))%nat then int (Z.of_nat (n - 48)) else NaN
  | None => NaN
  end.

(** Truthiness of a string, and of a possibly null string. *)
Definition str_truthy (s : string) : bool := negb (String.eqb s "").

Definition opt_str_truthy (o : option string) : bool :=
  match o with
  | Some s => str_truthy s
  | None => false
  end.

End JS.

Import JS.

Definition len {A} (l : list A) : Z := Z.of_nat (length l).

(* ===================================================================== *)
(** ** The document *)
(* ===================================================================== *)

Record Element := {
  localName : string;                    (* lower-case tag name *)
  attributes : list (string * string);   (* content attributes *)
  textContent : string;
  href : string;                         (* resolved; empty when absent *)
  src : string;
  naturalWidth : Z;
  offsetWidth : Z
}.

Fixpoint assoc {V} (k : string) (l : list (string * V)) : option V :=
  match l with
  | [] => None
  | (k', v) :: l' => if String.eqb k' k then Some v else assoc k l'
  end.

Definition getAttribute (e : Element) (name : string) : option string :=
  assoc name (attributes e).

(** [img.alt] reflects the content attribute, empty when absent. *)
Definition alt (e : Element) : string :=
  match getAttribute e "alt" with
  | Some v => v
  | None => ""
  end.

Definition tagName (e : Element) : string := toUpperCase (localName e).

Inductive attr_test :=
  | HasAttr (a : string)                 (* [a]      *)
  | AttrEq (a v : string)                (* [a="v"]  *)
  | AttrContains (a v : string).         (* [a*="v"] *)

Record compound := {
  sel_tag : option string;
  sel_attr : option attr_test
}.

(** A selector list: the comma-separated alternatives. *)
Definition selector := list compound.

Definition tag (t : string) : compound :=
  {| sel_tag := Some t; sel_attr := None |}.
Definition tag_with (t : string) (a : attr_test) : compound :=
  {| sel_tag := Some t; sel_attr := Some a |}.
Definition any_with (a : attr_test) : compound :=
  {| sel_tag := None; sel_attr := Some a |}.

Definition attr_holds (e : Element) (t : attr_test) : bool :=
  match t with
  | HasAttr a => bool_decide (is_Some (getAttribute e a))
  | AttrEq a v =>
      match getAttribute e a with
      | Some x => String.eqb x v
      | None => false
      end
  | AttrContains a v =>
      match getAttribute e a with
      | Some x => includes x v
      | None => false
      end
  end.

Definition matches_compound (e : Element) (c : compound) : bool :=
  match sel_tag c with
  | Some t => String.eqb (localName e) t
  | None => true
  end
  &&
  match sel_attr c with
  | Some t => attr_holds e t
  | None => true
  end.

Definition matches (s : selector) (e : Element) : bool :=
  existsb (matches_compound e) s.

Definition Document := list Element.

Definition querySelectorAll (doc : Document) (s : selector) : list Element :=
  List.filter (matches s) doc.

Definition querySelector (doc : Document) (s : selector) : option Element :=
  head (querySelectorAll doc s).

(** One entry of [performance.getEntriesByType('resource')]. *)
Record PerformanceResourceTiming := {
  pr_name : string;
  pr_duration : Q;
  transferSize : option Z;
  initiatorType : string
}.

(** The host: [performance_entries] is [None] when [window] has no
    [performance] property. *)
Record Window := {
  document : Document;
  location_protocol : string;
  performance_entries : option (list PerformanceResourceTiming)
}.

(* ===================================================================== *)
(** ** Audit results and the individual checks *)
(* ===================================================================== *)

(** The check-specific second field of an audit result. *)
Inductive Detail :=
  | issues (l : list string)
  | size (n : Z)
  | warning (w : option string)
  | secure (b : bool)
  | errors_list (l : list string)
  | deprecated (l : list string)
  | missing_count (n : Z)
  | unlabeled (n : Z)
  | missing (l : list string)
  | errors (n : Z).

(** [score] is [None] when the property is absent from the object. *)
Record AuditResult := {
  score : option number;
  detail : Detail
}.

Definition dquote : string := String "034"%char EmptyString.

Section Checks.

Variable window : Window.

Let doc : Document := document window.

Definition checkImageOptimization : AuditResult :=
  let images := querySelectorAll doc [tag "img"] in
  let largeImages :=
    List.filter (fun img =>
      let naturalWidth := naturalWidth img in
      let displayWidth := offsetWidth img in
      naturalWidth >? displayWidth * 2) images in
  {| score := Some
       (if (len largeImages =? 0)%Z then int 100
        else Math_max (int 0)
               (sub (int 100) (mul (int (len largeImages)) (int 20))));
     detail := issues
       (map (fun img =>
          "Image " +:+ dquote +:+ src img +:+ dquote +:+ " is larger than needed")
          largeImages) |}.

Definition checkCSSSize : AuditResult :=
  let stylesheets :=
    querySelectorAll doc [tag_with "link" (AttrEq "rel" "stylesheet")] in
  let totalSize :=
    fold_left (fun totalSize sheet =>
      if str_truthy (href sheet)
         && negb (includes (href sheet) "fonts.googleapis.com")
      then totalSize + 5000
      else totalSize) stylesheets 0 in
  {| score := Some
       (if totalSize <? 10000 then int 100
        else Math_max (int 0)
               (sub (int 100) (div (int (totalSize - 10000)) (int 1000))));
     detail := size totalSize |}.

Definition checkJSSize : AuditResult :=
  let scripts := querySelectorAll doc [tag_with "script" (HasAttr "src")] in
  let totalSize := len scripts * 10000 in
  {| score := Some
       (if totalSize <? 30000 then int 100
        else Math_max (int 0)
               (sub (int 100) (div (int (totalSize - 30000)) (int 1000))));
     detail := size totalSize |}.

Definition checkFontLoading : AuditResult :=
  let fonts :=
    querySelectorAll doc
      [tag_with "link" (AttrContains "href" "fonts.googleapis.com")] in
  {| score := Some (if len fonts <=? 2 then int 100 else int 50);
     detail := warning
       (if len fonts >? 2 then Some "Too many font requests" else None) |}.

Definition checkHTTPS : AuditResult :=
  {| score := Some
       (if String.eqb (location_protocol window) "https:" then int 100
        else int 0);
     detail := secure (String.eqb (location_protocol window) "https:") |}.

Definition checkConsoleErrors : AuditResult :=
  {| score := Some (int 100); detail := errors_list [] |}.

Definition checkDeprecatedAPI : AuditResult :=
  let deprecatedSelectors := ["applet"; "marquee"; "frameset"; "frame"] in
  let found :=
    List.filter (fun selector =>
      bool_decide (is_Some (querySelector doc [tag selector])))
      deprecatedSelectors in
  {| score := Some (if (len found =? 0)%Z then int 100 else int 0);
     detail := deprecated found |}.

Definition checkAltTags : AuditResult :=
  let images := querySelectorAll doc [tag "img"] in
  let missingAlt := List.filter (fun img => negb (str_truthy (alt img))) images in
  {| score := Some
       (if (len images =? 0)%Z then int 100
        else Math_round
               (mul (sub (int 1) (div (int (len missingAlt)) (int (len images))))
                    (int 100)));
     detail := missing_count (len missingAlt) |}.

Definition checkAriaLabels : AuditResult :=
  let interactiveElements :=
    querySelectorAll doc
      [tag "button"; tag "a"; tag "input"; any_with (HasAttr "role")] in
  let unlabeled_els :=
    List.filter (fun el =>
      negb (opt_str_truthy (getAttribute el "aria-label"))
      && negb (str_truthy (trim (textContent el)))
      && negb (opt_str_truthy (getAttribute el "title")))
      interactiveElements in
  {| score := Some
       (if (len interactiveElements =? 0)%Z then int 100
        else Math_round
               (mul (sub (int 1)
                      (div (int (len unlabeled_els))
                           (int (len interactiveElements))))
                    (int 100)));
     detail := unlabeled (len unlabeled_els) |}.

Definition checkColorContrast : AuditResult :=
  {| score := Some (int 85);
     detail := warning (Some "Run detailed contrast check with browser tools") |}.

Definition string_in (s : string) (l : list string) : bool :=
  existsb (String.eqb s) l.

Definition checkMetaTags : AuditResult :=
  let requiredMeta := ["description"; "viewport"] in
  let presentMeta :=
    List.filter (fun meta =>
      bool_decide (is_Some
        (querySelector doc [tag_with "meta" (AttrEq "name" meta)])))
      requiredMeta in
  {| score := Some
       (Math_round
          (mul (div (int (len presentMeta)) (int (len requiredMeta)))
               (int 100)));
     detail := missing
       (List.filter (fun meta => negb (string_in meta presentMeta))
          requiredMeta) |}.

(** The loop body of the heading scan, on the pair
    [(lastLevel, structureErrors)]. *)
Definition heading_step (st : number * Z) (heading : Element) : number * Z :=
  let '(lastLevel, structureErrors) := st in
  let level := parseInt_char (String.get 1 (tagName heading)) in
  (level,
   if lt (add lastLevel (int 1)) level then structureErrors + 1
   else structureErrors).

Definition checkHeadingStructure : AuditResult :=
  let headings :=
    querySelectorAll doc
      [tag "h1"; tag "h2"; tag "h3"; tag "h4"; tag "h5"; tag "h6"] in
  let '(_, structureErrors) := fold_left heading_step headings (int 0, 0) in
  {| score := Some
       (if (len headings =? 0)%Z then int 100
        else Math_max (int 0) (sub (int 100) (mul (int structureErrors) (int 20))));
     detail := errors structureErrors |}.

Definition checkSemanticHTML : AuditResult :=
  let semanticElements :=
    ["header"; "nav"; "main"; "section"; "article"; "aside"; "footer"] in
  let present :=
    List.filter (fun t => bool_decide (is_Some (querySelector doc [tag t])))
      semanticElements in
  {| score := Some
       (Math_round
          (mul (div (int (len present)) (int (len semanticElements)))
               (int 100)));
     detail := missing
       (List.filter (fun t => negb (string_in t present)) semanticElements) |}.

End Checks.

(* ===================================================================== *)
(** ** The audit structure and the metrics store *)
(* ===================================================================== *)

(** A category maps check names to results, in insertion order. *)
Definition AuditCategory := list (string * AuditResult).

(** [obj[k] = v]: overwrite in place, or append a new key. *)
Fixpoint set_prop {V} (k : string) (v : V) (obj : list (string * V))
  : list (string * V) :=
  match obj with
  | [] => [(k, v)]
  | (k', v') :: obj' =>
      if String.eqb k' k then (k, v) :: obj' else (k', v') :: set_prop k v obj'
  end.

(** [Object.values(obj)] *)
Definition Object_values {V} (obj : list (string * V)) : list V :=
  map snd obj.

Record Audit := {
  performance : AuditCategory;
  bestPractices : AuditCategory;
  accessibility : AuditCategory;
  seo : AuditCategory
}.

Record ResourceEntry := {
  name : string;
  duration : Q;
  rsize : Z;
  type : string
}.

Record Summary := {
  count : Z;
  totalSize : Z;
  averageTime : number;
  items : list ResourceEntry
}.

(** The metrics store; an entry is [None] until it is written. *)
Record Metrics := {
  resources : option (list ResourceEntry);
  resourceSummary : option (gmap string Summary);
  fps : option number;
  audit : option Audit
}.

(** [this.metrics = {}] *)
Definition empty_metrics : Metrics :=
  {| resources := None; resourceSummary := None; fps := None; audit := None |}.

Definition runAudit (window : Window) (m : Metrics) : Metrics * Audit :=
  let a :=
    {| performance :=
         set_prop "fontLoading" (checkFontLoading window)
           (set_prop "jsSize" (checkJSSize window)
              (set_prop "cssSize" (checkCSSSize window)
                 (set_prop "imageOptimization" (checkImageOptimization window) [])));
       bestPractices :=
         set_prop "deprecatedAPI" (checkDeprecatedAPI window)
           (set_prop "consoleErrors" checkConsoleErrors
              (set_prop "https" (checkHTTPS window) []));
       accessibility :=
         set_prop "colorContrast" checkColorContrast
           (set_prop "ariaLabels" (checkAriaLabels window)
              (set_prop "altTags" (checkAltTags window) []));
       seo :=
         set_prop "semanticHTML" (checkSemanticHTML window)
           (set_prop "headingStructure" (checkHeadingStructure window)
              (set_prop "metaTags" (checkMetaTags window) [])) |} in
  ({| resources := resources m; resourceSummary := resourceSummary m;
      fps := fps m; audit := Some a |}, a).

(* ===================================================================== *)
(** ** Score aggregation *)
(* ===================================================================== *)

Module ScoreSet.
Record t := {
  performance : number;
  accessibility : number;
  bestPractices : number;
  seo : number;
  overall : number
}.
End ScoreSet.

Definition calculateCategoryScore (category : AuditCategory) : number :=
  let scores :=
    map (fun item => or_default (score item) (int 0)) (Object_values category) in
  Math_round
    (div (fold_left (fun sum score => add sum score) scores (int 0))
         (int (len scores))).

Definition calculateScores (m : Metrics) : ScoreSet.t :=
  let scores :=
    {| ScoreSet.performance := int 85;
       ScoreSet.accessibility := int 90;
       ScoreSet.bestPractices := int 88;
       ScoreSet.seo := int 92;
       ScoreSet.overall := int 89 |} in
  match audit m with
  | Some a =>
      let p := calculateCategoryScore (performance a) in
      let ac := calculateCategoryScore (accessibility a) in
      let bp := calculateCategoryScore (bestPractices a) in
      let s := calculateCategoryScore (seo a) in
      {| ScoreSet.performance := p;
         ScoreSet.accessibility := ac;
         ScoreSet.bestPractices := bp;
         ScoreSet.seo := s;
         ScoreSet.overall :=
           Math_round (div (add (add (add p ac) bp) s) (int 4)) |}
  | None => scores
  end.

(* ===================================================================== *)
(** ** Recommendations *)
(* ===================================================================== *)

Definition rec_images : string :=
  "Optimize images by resizing to appropriate dimensions".
Definition rec_css : string := "Minify and compress CSS files".
Definition rec_alt : string := "Add alt text to all images".
Definition rec_meta : string :=
  "Add missing meta tags (description, viewport)".

(** [if (c) recommendations.push(s)] *)
Definition push_if (c : bool) (s : string) (recommendations : list string)
  : list string :=
  if c then recommendations ++ [s] else recommendations.

(** [None] is the TypeError of reading [.score] on a missing check. *)
Definition generateRecommendations (m : Metrics) : option (list string) :=
  let recommendations := [] in
  match audit m with
  | Some a =>
      imageOptimization ← assoc "imageOptimization" (performance a);
      let recommendations :=
        push_if (opt_lt (score imageOptimization) (int 80)) rec_images
          recommendations in
      cssSize ← assoc "cssSize" (performance a);
      let recommendations :=
        push_if (opt_lt (score cssSize) (int 80)) rec_css recommendations in
      altTags ← assoc "altTags" (accessibility a);
      let recommendations :=
        push_if (opt_lt (score altTags) (int 100)) rec_alt recommendations in
      metaTags ← assoc "metaTags" (seo a);
      let recommendations :=
        push_if (opt_lt (score metaTags) (int 100)) rec_meta recommendations in
      Some recommendations
  | None => Some recommendations
  end.

(* ===================================================================== *)
(** ** Resource metrics *)
(* ===================================================================== *)

(** [resource.transferSize || 0] *)
Definition size_or_zero (ts : option Z) : Z :=
  match ts with
  | Some n => if (n =? 0)%Z then 0 else n
  | None => 0
  end.

Definition to_entry (resource : PerformanceResourceTiming) : ResourceEntry :=
  {| name := pr_name resource;
     duration := pr_duration resource;
     rsize := size_or_zero (transferSize resource);
     type := initiatorType resource |}.

(** The reducer that groups by type. *)
Definition group_step (acc : gmap string Summary) (resource : ResourceEntry)
  : gmap string Summary :=
  let acc :=
    match acc !! type resource with
    | Some _ => acc
    | None =>
        <[type resource :=
            {| count := 0; totalSize := 0; averageTime := int 0; items := [] |}]>
          acc
    end in
  alter (fun s =>
    {| count := count s + 1;
       totalSize := totalSize s + rsize resource;
       averageTime := averageTime s;
       items := items s ++ [resource] |}) (type resource) acc.

(** The second pass, per bucket. *)
Definition with_average (summary : Summary) : Summary :=
  {| count := count summary;
     totalSize := totalSize summary;
     averageTime :=
       div (Num (fold_left (fun sum item => (sum + duration item)%Q)
                   (items summary) 0%Q))
           (int (count summary));
     items := items summary |}.

Definition measureResources (window : Window) (m : Metrics)
  : Metrics * option (list ResourceEntry) :=
  match performance_entries window with
  | Some entries =>
      let rs := map to_entry entries in
      let summary := with_average <$> fold_left group_step rs ∅ in
      ({| resources := Some rs; resourceSummary := Some summary;
          fps := fps m; audit := audit m |}, Some rs)
  | None => (m, resources m)
  end.

(* ===================================================================== *)
(** ** The FPS sampler *)
(* ===================================================================== *)

(** The closure state of one [measureFPS] call: the two captured
    variables, whether [measureFrame] is queued for the next animation
    frame, and the values the promise's [resolve] was called with. *)
Record Sampler := {
  frames : Z;
  startTime : option Q;
  scheduled : bool;
  resolved : list number
}.

(** [!startTime]: [null] and 0 are both falsy. *)
Definition start_unset (s : option Q) : bool :=
  match s with
  | Some t => Qeq_bool t 0
  | None => true
  end.

Definition measureFrame (duration timestamp : Q) (st : Sampler * Metrics)
  : Sampler * Metrics :=
  let '(s, m) := st in
  let startTime :=
    if start_unset (startTime s) then timestamp
    else match startTime s with Some t => t | None => timestamp end in
  let frames := frames s + 1 in
  if Qlt_bool (timestamp - startTime) duration then
    ({| frames := frames; startTime := Some startTime;
        scheduled := true; resolved := resolved s |}, m)
  else
    let fps := Math_round (div (int (frames * 1000)) (Num duration)) in
    ({| frames := frames; startTime := Some startTime;
        scheduled := false; resolved := resolved s ++ [fps] |},
     {| resources := resources m; resourceSummary := resourceSummary m;
        fps := Some fps; audit := audit m |}).

(** One animation frame of the host: the queued callback, if any, is
    removed from the queue and run with the frame's timestamp. *)
Definition animation_frame (duration : Q) (st : Sampler * Metrics)
  (timestamp : Q) : Sampler * Metrics :=
  if scheduled (fst st) then
    measureFrame duration timestamp
      ({| frames := frames (fst st); startTime := startTime (fst st);
          scheduled := false; resolved := resolved (fst st) |}, snd st)
  else st.

(** [measureFPS(duration)] followed by the animation frames whose
    timestamps are [timestamps]. *)
Definition measureFPS (duration : Q) (timestamps : list Q) (m : Metrics)
  : Sampler * Metrics :=
  fold_left (animation_frame duration) timestamps
    ({| frames := 0; startTime := None; scheduled := true; resolved := [] |}, m).

(* ===================================================================== *)
(** ** The rest of the tester: timing, memory, the report, the full run *)
(* ===================================================================== *)

(** The fields of [performance.timing] that the code reads, in ms. *)
Record PerformanceTiming := {
  navigationStart : Z;
  domainLookupStart : Z;
  domainLookupEnd : Z;
  connectStart : Z;
  connectEnd : Z;
  requestStart : Z;
  responseStart : Z;
  domContentLoadedEventEnd : Z;
  loadEventEnd : Z
}.

Record PageLoad := {
  dns : Z;
  tcp : Z;
  ttfb : Z;
  domContentLoaded : Z;
  fullLoad : Z
}.

Record MemoryInfo := {
  usedJSHeapSize : Z;
  totalJSHeapSize : Z;
  jsHeapSizeLimit : Z
}.

(** The host around the window.  [performance] exists exactly when the
    window's [performance_entries] is not [None]; [timing] and
    [performance_now] are read only in that case; [performance_memory] is
    [None] when [performance] has no [memory] property. *)
Record Host := {
  host_window : Window;
  performance_now : Q;
  timing : PerformanceTiming;
  performance_memory : option MemoryInfo;
  location_href : string
}.

Definition has_performance (h : Host) : bool :=
  match performance_entries (host_window h) with
  | Some _ => true
  | None => false
  end.

(** A [PerformanceTester] object.  [metrics] holds the four store entries
    modelled above; the store's [pageLoad] and [memory] entries are kept
    beside it. *)
Record Tester := {
  metrics : Metrics;
  pageLoad : option PageLoad;
  memory : option MemoryInfo;
  tester_startTime : Q
}.

(** How a call ends: it returns, it throws, or (for an awaited promise
    that is never resolved) it never completes. *)
Inductive outcome (A : Type) : Type :=
  | Returns (a : A)
  | Throws
  | Pending.

Arguments Returns {A} a.
Arguments Throws {A}.
Arguments Pending {A}.

#[global] Instance outcome_bind : MBind outcome := fun A B k o =>
  match o with
  | Returns a => k a
  | Throws => Throws
  | Pending => Pending
  end.

(** [new PerformanceTester()]: the constructor reads [performance.now()]
    without a guard. *)
Definition new_PerformanceTester (h : Host) : outcome Tester :=
  if has_performance h then
    Returns {| metrics := empty_metrics; pageLoad := None; memory := None;
               tester_startTime := performance_now h |}
  else Throws.

Definition measurePageLoad (h : Host) (t : Tester) : Tester * option PageLoad :=
  let t' :=
    if has_performance h then
      let timing := timing h in
      {| metrics := metrics t;
         pageLoad := Some
           {| dns := domainLookupEnd timing - domainLookupStart timing;
              tcp := connectEnd timing - connectStart timing;
              ttfb := responseStart timing - requestStart timing;
              domContentLoaded :=
                domContentLoadedEventEnd timing - navigationStart timing;
              fullLoad := loadEventEnd timing - navigationStart timing |};
         memory := memory t;
         tester_startTime := tester_startTime t |}
    else t in
  (t', pageLoad t').

(** [measureResources] as a method of the tester. *)
Definition tester_measureResources (h : Host) (t : Tester)
  : Tester * option (list ResourceEntry) :=
  let '(m, r) := measureResources (host_window h) (metrics t) in
  ({| metrics := m; pageLoad := pageLoad t; memory := memory t;
      tester_startTime := tester_startTime t |}, r).

(** [measureMemory] tests ['memory' in performance] without first testing
    that [performance] exists. *)
Definition measureMemory (h : Host) (t : Tester)
  : outcome (Tester * option MemoryInfo) :=
  if has_performance h then
    let t' :=
      match performance_memory h with
      | Some mem =>
          {| metrics := metrics t;
             pageLoad := pageLoad t;
             memory := Some
               {| usedJSHeapSize := usedJSHeapSize mem;
                  totalJSHeapSize := totalJSHeapSize mem;
                  jsHeapSizeLimit := jsHeapSizeLimit mem |};
             tester_startTime := tester_startTime t |}
      | None => t
      end in
    Returns (t', memory t')
  else Throws.

(** [await this.measureFPS(duration)] against the animation frames whose
    timestamps are [timestamps]: the value the promise resolves with, or
    [Pending] when those frames do not resolve it. *)
Definition tester_measureFPS (duration : Q) (timestamps : list Q) (t : Tester)
  : outcome (Tester * number) :=
  let '(s, m) := measureFPS duration timestamps (metrics t) in
  match resolved s with
  | v :: _ =>
      Returns ({| metrics := m; pageLoad := pageLoad t; memory := memory t;
                  tester_startTime := tester_startTime t |}, v)
  | [] => Pending
  end.

(** [runAudit] as a method of the tester. *)
Definition tester_runAudit (h : Host) (t : Tester) : Tester * Audit :=
  let '(m, a) := runAudit (host_window h) (metrics t) in
  ({| metrics := m; pageLoad := pageLoad t; memory := memory t;
      tester_startTime := tester_startTime t |}, a).

(** A report.  [report_metrics] is the tester whose store the report
    shares: the report's [metrics] property is that same object. *)
Record Report := {
  timestamp : string;
  url : string;
  report_metrics : Tester;
  scores : ScoreSet.t;
  recommendations : list string
}.

(** [now] is [new Date().toISOString()]. *)
Definition generateReport (h : Host) (now : string) (t : Tester)
  : outcome Report :=
  let scores := calculateScores (metrics t) in
  match generateRecommendations (metrics t) with
  | Some recommendations =>
      Returns {| timestamp := now; url := location_href h;
                 report_metrics := t; scores := scores;
                 recommendations := recommendations |}
  | None => Throws
  end.

(** [runFullTest]; the lines it writes to the console are not modelled. *)
Definition runFullTest (h : Host) (now : string) (timestamps : list Q)
    (t : Tester) : outcome (Report * Tester) :=
  let '(t, _) := measurePageLoad h t in
  let '(t, _) := tester_measureResources h t in
  '(t, _) ← measureMemory h t;
  '(t, _) ← tester_measureFPS 1000 timestamps t;
  let '(t, _) := tester_runAudit h t in
  report ← generateReport h now t;
  Returns (report, t).

(* ===================================================================== *)
(** ** The image scanner's suggestions *)
(* ===================================================================== *)

(** One scanned image file, as [scanDirectory] records it. *)
Record ImageFile := {
  img_path : string;
  img_name : string;
  img_size : Z;
  extension : string
}.

Definition suggest_resize : string := "Consider resizing to max 1200px width".
Definition suggest_webp : string :=
  "Convert PNG to WebP format for better compression".
Definition suggest_quality : string := "Reduce JPEG quality to 80-85%".
Definition suggest_nothing : string := "Image is already optimized".

Definition suggestOptimization (image : ImageFile) : list string :=
  let suggestions := [] in
  let suggestions :=
    push_if (img_size image >? 1024 * 1024) suggest_resize suggestions in
  let suggestions :=
    push_if (String.eqb (extension image) ".png" && (img_size image >? 500 * 1024))
      suggest_webp suggestions in
  let suggestions :=
    push_if (String.eqb (extension image) ".jpg"
             || String.eqb (extension image) ".jpeg")
      suggest_quality suggestions in
  push_if (len suggestions =? 0) suggest_nothing suggestions.

(* ===================================================================== *)
(** ** Definitions used to state the properties *)
(* ===================================================================== *)

(** *** Scores *)

(** Rounding half up: [z] is the integer with [z - 1/2 <= q < z + 1/2]. *)
Definition round_half_up (q : Q) (z : Z) : Prop :=
  (inject_Z z - (1 # 2) <= q)%Q ∧ (q < inject_Z z + (1 # 2))%Q.

(** A number that is an integer between 0 and 100. *)
Definition is_score (s : number) : Prop :=
  ∃ z : Z, 0 ≤ z ≤ 100 ∧ num_eq s (int z).

Definition has_score (r : AuditResult) : Prop :=
  ∃ s, score r = Some s ∧ is_score s.

(** *** Stylesheets and headings *)

(** Whether the CSS-size check counts a stylesheet link. *)
Definition css_counted (sheet : Element) : bool :=
  str_truthy (href sheet) && negb (includes (href sheet) "fonts.googleapis.com").

Definition stylesheet_links (w : Window) : list Element :=
  querySelectorAll (document w) [tag_with "link" (AttrEq "rel" "stylesheet")].

Definition heading_selector : selector :=
  [tag "h1"; tag "h2"; tag "h3"; tag "h4"; tag "h5"; tag "h6"].

(** The level of a heading element, [None] for any other element. *)
Definition heading_level (e : Element) : option Z :=
  if String.eqb (localName e) "h1" then Some 1
  else if String.eqb (localName e) "h2" then Some 2
  else if String.eqb (localName e) "h3" then Some 3
  else if String.eqb (localName e) "h4" then Some 4
  else if String.eqb (localName e) "h5" then Some 5
  else if String.eqb (localName e) "h6" then Some 6
  else None.

(** The levels of the document's headings, in document order. *)
Definition heading_levels (doc : Document) : list Z := omap heading_level doc.

(** Headings that are more than one level below the heading before them,
    the scan starting from level [prev]. *)
Fixpoint jumps (prev : Z) (levels : list Z) : Z :=
  match levels with
  | [] => 0
  | l :: ls => (if l >? prev + 1 then 1 else 0) + jumps l ls
  end.

(** *** Audits *)

(** All the results an audit holds, category by category. *)
Definition audit_results (a : Audit) : list AuditResult :=
  Object_values (performance a) ++ Object_values (bestPractices a)
  ++ Object_values (accessibility a) ++ Object_values (seo a).

(** The check functions, in the order [runAudit] calls them. *)
Definition all_checks (w : Window) : list AuditResult :=
  [ checkImageOptimization w; checkCSSSize w; checkJSSize w; checkFontLoading w;
    checkHTTPS w; checkConsoleErrors; checkDeprecatedAPI w;
    checkAltTags w; checkAriaLabels w; checkColorContrast;
    checkMetaTags w; checkHeadingStructure w; checkSemanticHTML w ].

(** *** Concrete pages and elements *)

Definition element (t : string) (attrs : list (string * string)) : Element :=
  {| localName := t; attributes := attrs; textContent := ""; href := "";
     src := ""; naturalWidth := 0; offsetWidth := 0 |}.

Definition stylesheet (url : string) : Element :=
  {| localName := "link";
     attributes := [("rel", "stylesheet"); ("href", url)];
     textContent := ""; href := url; src := "";
     naturalWidth := 0; offsetWidth := 0 |}.

Definition page (doc : Document) : Window :=
  {| document := doc; location_protocol := "https:";
     performance_entries := None |}.

(** A stylesheet link with no href, or with a Google Fonts href. *)
Definition css_exempt (sheet : Element) : bool :=
  String.eqb (href sheet) "" || includes (href sheet) "fonts.googleapis.com".

Definition css_contribution (sheet : Element) : Z :=
  if css_exempt sheet then 0 else 5000.

(** Headings that are more than one level below the heading immediately
    before them; the first heading has none before it. *)
Fixpoint skips (levels : list Z) : Z :=
  match levels with
  | a :: ((b :: _) as rest) => (if b >? a + 1 then 1 else 0) + skips rest
  | _ => 0
  end.

Definition img_selector : selector := [tag "img"].
Definition interactive_selector : selector :=
  [tag "button"; tag "a"; tag "input"; any_with (HasAttr "role")].

Definition four_images : Document :=
  [ element "img" [("alt", "logo")]; element "img" [("alt", "portrait")];
    element "img" []; element "p" []; element "img" [("alt", "chart")] ].

(** *** Means and category scores *)

(** What a check adds to the sum: its score, or 0 when it has none. *)
Definition contribution (r : AuditResult) : Q :=
  match score r with
  | Some (Num q) => q
  | _ => 0%Q
  end.

(** The score is absent or an ordinary (finite) number. *)
Definition finite_or_absent (r : AuditResult) : Prop :=
  match score r with
  | Some (Num _) | None => True
  | Some _ => False
  end.

Definition Qsum (l : list Q) : Q := fold_right Qplus 0%Q l.

(** The arithmetic mean of a non-empty list. *)
Definition mean (l : list Q) : Q := (Qsum l / inject_Z (len l))%Q.

Definition score_value (s : option number) : Q :=
  match s with
  | Some (Num q) => q
  | _ => 0%Q
  end.

Definition result_of (s : option number) : AuditResult :=
  {| score := s; detail := errors_list [] |}.

Definition placeholder : ScoreSet.t :=
  {| ScoreSet.performance := int 85;
     ScoreSet.accessibility := int 90;
     ScoreSet.bestPractices := int 88;
     ScoreSet.seo := int 92;
     ScoreSet.overall := int 89 |}.

(** Every category has a check and every score is a number or absent. *)
Definition well_formed (a : Audit) : Prop :=
  Forall (fun cat : AuditCategory =>
            cat ≠ [] ∧ Forall finite_or_absent (Object_values cat))
    [performance a; accessibility a; bestPractices a; seo a].

(** The single-stage alternative: the leaf scores of all categories. *)
Definition leaf_scores (a : Audit) : list Q :=
  map contribution (audit_results a).

(** A page served over https whose only element is an h2. *)
Definition lone_h2 : Window := page [element "h2" []].

(** *** Recommendations *)

(** The four conditions with their advisory strings, in the order the
    code tests them. *)
Definition advisories (io css alt_ meta : AuditResult) : list (bool * string) :=
  [ (opt_lt (score io) (int 80), rec_images);
    (opt_lt (score css) (int 80), rec_css);
    (opt_lt (score alt_) (int 100), rec_alt);
    (opt_lt (score meta) (int 100), rec_meta) ].

Definition expected_recommendations (io css alt_ meta : AuditResult)
  : list string :=
  map snd (List.filter fst (advisories io css alt_ meta)).

(** A page with one oversized image without alt text and no meta tags. *)
Definition bare_image_page : Window :=
  page [ {| localName := "img"; attributes := []; textContent := "";
            href := ""; src := "hero.png"; naturalWidth := 4000;
            offsetWidth := 400 |} ].

(** *** Resource summaries *)

(** The entries of one type, in order. *)
Definition of_type (t : string) (rs : list ResourceEntry) : list ResourceEntry :=
  List.filter (fun r => String.eqb (type r) t) rs.

Definition total_size (rs : list ResourceEntry) : Z :=
  fold_right Z.add 0 (map rsize rs).

(** What the first pass has built once it has consumed [processed]. *)
Definition grouped (processed : list ResourceEntry) (acc : gmap string Summary)
  : Prop :=
  ∀ t : string,
    match acc !! t with
    | None => of_type t processed = []
    | Some s =>
        of_type t processed ≠ []
        ∧ count s = len (of_type t processed)
        ∧ totalSize s = total_size (of_type t processed)
        ∧ items s = of_type t processed
    end.

Definition script_entry (url : string) (ms : Q) (bytes : Z)
  : PerformanceResourceTiming :=
  {| pr_name := url; pr_duration := ms; transferSize := Some bytes;
     initiatorType := "script" |}.

Definition two_scripts : Window :=
  {| document := []; location_protocol := "https:";
     performance_entries :=
       Some [script_entry "a.js" 100 10; script_entry "b.js" 300 20] |}.

(** *** Sampling *)

Definition set_fps (m : Metrics) (v : number) : Metrics :=
  {| resources := resources m; resourceSummary := resourceSummary m;
     fps := Some v; audit := audit m |}.

(** [n] timestamps starting at [t0], [step] apart. *)
Definition evenly_spaced (t0 step : Q) (n : nat) : list Q :=
  map (fun k => (t0 + inject_Z (Z.of_nat k) * step)%Q) (seq 0 n).

(** The sampler as the specification words it: the window starts at the
    first callback's timestamp; the promise resolves if some callback
    reaches the end of the window, with the number of callbacks that fall
    within the window. *)
Definition claimed_fps (duration : Q) (timestamps : list Q) : list number :=
  match timestamps with
  | [] => []
  | t0 :: _ =>
      if existsb (fun t => Qle_bool duration (t - t0)) timestamps then
        let within := List.filter (fun t => Qle_bool (t - t0) duration) timestamps in
        [Math_round (div (int (len within * 1000)) (Num duration))]
      else []
  end.

(** *** Further definitions for the properties of the whole pipeline *)

(** The score is absent, or a number between 0 and 100. *)
Definition score_within (r : AuditResult) : Prop :=
  match score r with
  | None => True
  | Some (Num q) => (0 <= q)%Q ∧ (q <= 100)%Q
  | Some _ => False
  end.

(** The five scores of a score set. *)
Definition score_list (s : ScoreSet.t) : list number :=
  [ScoreSet.performance s; ScoreSet.accessibility s; ScoreSet.bestPractices s;
   ScoreSet.seo s; ScoreSet.overall s].

(** Whether the document has an element with tag [t]. *)
Definition has_tag (doc : Document) (t : string) : bool :=
  existsb (fun e => String.eqb (localName e) t) doc.

(** Whether the document has a [meta] element with this [name]. *)
Definition has_meta (doc : Document) (name : string) : bool :=
  existsb (fun e =>
    String.eqb (localName e) "meta"
    && match getAttribute e "name" with
       | Some v => String.eqb v name
       | None => false
       end) doc.

Definition deprecated_tags : list string :=
  ["applet"; "marquee"; "frameset"; "frame"].

(** The page is served over https. *)
Definition is_secure (w : Window) : bool :=
  String.eqb (location_protocol w) "https:".

(** The page has none of the deprecated elements. *)
Definition is_clean (w : Window) : bool :=
  negb (existsb (has_tag (document w)) deprecated_tags).

(** The images of the page, and the two defects the checks look for. *)
Definition page_images (w : Window) : list Element :=
  querySelectorAll (document w) img_selector.

Definition oversized (img : Element) : bool :=
  naturalWidth img >? offsetWidth img * 2.

Definition lacks_alt (img : Element) : bool := negb (str_truthy (alt img)).

(** The recommendations issued for a page once it has been audited. *)
Definition page_recommendations (w : Window) (m : Metrics)
  : option (list string) :=
  generateRecommendations (fst (runAudit w m)).

Definition required_meta : list string := ["description"; "viewport"].

Definition semantic_tags : list string :=
  ["header"; "nav"; "main"; "section"; "article"; "aside"; "footer"].

(** The script elements that carry a src attribute. *)
Definition external_scripts (w : Window) : list Element :=
  querySelectorAll (document w) [tag_with "script" (HasAttr "src")].

(** Totals over the buckets of a resource summary. *)
Definition bucket_counts (summary : gmap string Summary) : Z :=
  map_fold (fun _ s acc => count s + acc) 0 summary.

Definition bucket_sizes (summary : gmap string Summary) : Z :=
  map_fold (fun _ s acc => totalSize s + acc) 0 summary.

(** A host around a window, with a clock at 0, zeroed navigation timing
    and no heap statistics. *)
Definition host_of (w : Window) : Host :=
  {| host_window := w;
     performance_now := 0;
     timing :=
       {| navigationStart := 0; domainLookupStart := 0; domainLookupEnd := 0;
          connectStart := 0; connectEnd := 0; requestStart := 0;
          responseStart := 0; domContentLoadedEventEnd := 0;
          loadEventEnd := 0 |};
     performance_memory := None;
     location_href := "https://example.org/" |}.

Definition new_tester : Tester :=
  {| metrics := empty_metrics; pageLoad := None; memory := None;
     tester_startTime := 0 |}.

(** The integer scores between 0 and 100. *)
Definition percent (s : number) : Prop := ∃ z : Z, s = int z ∧ 0 ≤ z ≤ 100.


(** An audit whose performance category lacks the CSS-size check. *)
Definition audit_without_css : Audit :=
  {| performance := [("imageOptimization", result_of (Some (int 100)))];
     bestPractices := [];
     accessibility := [("altTags", result_of (Some (int 100)))];
     seo := [("metaTags", result_of (Some (int 100)))] |}.

Definition with_audit (a : Audit) : Metrics :=
  {| resources := None; resourceSummary := None; fps := None;
     audit := Some a |}.



Definition small_gif : ImageFile :=
  {| img_path := "img/dot.gif"; img_name := "dot.gif"; img_size := 1000;
     extension := ".gif" |}.

(* ===================================================================== *)
(** * Properties *)
(* ===================================================================== *)

(** ** Facts about numbers *)

Section NumberFacts.

Local Open Scope Q_scope.

Lemma num_eq_refl a : num_eq a a.
Proof. destruct a; simpl; auto with qarith. Qed.

Lemma Qeq_bool_inject_Z_0 (n : Z) : n ≠ 0%Z → Qeq_bool (inject_Z n) 0 = false.
Proof.
  intros Hn. destruct (Qeq_bool (inject_Z n) 0) eqn:E; [|reflexivity].
  apply Qeq_bool_eq in E. unfold Qeq in E. simpl in E. lia.
Qed.

Lemma div_num_nonzero (q : Q) (b : Z) :
  b ≠ 0%Z → div (Num q) (int b) = Num (q / inject_Z b).
Proof. intros Hb. unfold div, int. now rewrite Qeq_bool_inject_Z_0. Qed.

Lemma div_int_nonzero (a b : Z) :
  b ≠ 0%Z → div (int a) (int b) = Num (inject_Z a / inject_Z b).
Proof. intros Hb. unfold div, int. now rewrite Qeq_bool_inject_Z_0. Qed.

Lemma Qlt_bool_true x y : Qlt_bool x y = true ↔ x < y.
Proof.
  unfold Qlt_bool. rewrite negb_true_iff. split.
  - intros E. apply Qnot_le_lt. intros H. apply Qle_bool_iff in H. congruence.
  - intros H. destruct (Qle_bool y x) eqn:E; [|reflexivity].
    apply Qle_bool_iff in E. exfalso. exact (Qlt_not_le _ _ H E).
Qed.

Lemma Qlt_bool_false x y : Qlt_bool x y = false ↔ y <= x.
Proof.
  unfold Qlt_bool. rewrite negb_false_iff. apply Qle_bool_iff.
Qed.

Lemma Qfloor_half_range q :
  0 <= q → q <= 100 → (0 ≤ Qfloor (q + (1 # 2)) ≤ 100)%Z.
Proof.
  intros H0 H100. split.
  - change 0%Z with (Qfloor 0). apply Qfloor_resp_le. lra.
  - change 100%Z with (Qfloor (100 + (1 # 2))). apply Qfloor_resp_le. lra.
Qed.

Lemma Math_round_spec q : round_half_up q (Qfloor (q + (1 # 2))).
Proof.
  pose proof (Qfloor_le (q + (1 # 2))) as Hl.
  pose proof (Qlt_floor (q + (1 # 2))) as Hu.
  rewrite inject_Z_plus in Hu. unfold round_half_up.
  change (inject_Z 1) with 1 in Hu. split; lra.
Qed.

Lemma round_half_up_unique q z1 z2 :
  round_half_up q z1 → round_half_up q z2 → z1 = z2.
Proof.
  unfold round_half_up. intros [H1 H2] [H3 H4].
  assert (inject_Z z1 < inject_Z z2 + 1) as Ha by lra.
  assert (inject_Z z2 < inject_Z z1 + 1) as Hb by lra.
  change 1 with (inject_Z 1) in Ha, Hb.
  rewrite <- inject_Z_plus in Ha, Hb.
  rewrite <- Zlt_Qlt in Ha, Hb. lia.
Qed.

End NumberFacts.

(** ** Scores stay in range *)

Lemma is_score_int z : 0 ≤ z ≤ 100 → is_score (int z).
Proof. intros Hz. exists z. split; [exact Hz | apply num_eq_refl]. Qed.

Lemma is_score_not_NaN s : is_score s → s ≠ NaN.
Proof. intros (z & _ & Hz) ->. exact Hz. Qed.

Lemma Math_max_0_eq q k :
  (q == inject_Z k)%Q → num_eq (Math_max (int 0) (Num q)) (int (Z.max 0 k)).
Proof.
  intros Hq. unfold Math_max, int, lt.
  destruct (Qlt_bool (inject_Z 0) q) eqn:E; simpl.
  - apply Qlt_bool_true in E. rewrite Hq in E. rewrite <- Zlt_Qlt in E.
    rewrite Z.max_r by lia. exact Hq.
  - apply Qlt_bool_false in E. rewrite Hq in E. rewrite <- Zle_Qle in E.
    rewrite Z.max_l by lia. reflexivity.
Qed.

Lemma is_score_max0 q k :
  (q == inject_Z k)%Q → k ≤ 100 → is_score (Math_max (int 0) (Num q)).
Proof.
  intros Hq Hk. exists (Z.max 0 k). split; [lia | now apply Math_max_0_eq].
Qed.

Lemma is_score_round q : (0 <= q)%Q → (q <= 100)%Q → is_score (Math_round (Num q)).
Proof. intros H0 H1. apply is_score_int. now apply Qfloor_half_range. Qed.

(** The shape [100 - n * unit] of the penalty checks. *)
Lemma penalty_eq (n u : Z) :
  sub (int 100) (mul (int n) (int u)) = Num (inject_Z 100 + - (inject_Z n * inject_Z u)).
Proof. reflexivity. Qed.

Lemma penalty_int (n u : Z) :
  (inject_Z 100 + - (inject_Z n * inject_Z u) == inject_Z (100 - n * u))%Q.
Proof.
  unfold Z.sub. now rewrite inject_Z_plus, inject_Z_opp, inject_Z_mult.
Qed.

(** The shape [100 - (total - budget) / 1000] of the byte-budget checks,
    when the total is a multiple of 1000. *)
Lemma budget_int (k budget : Z) :
  (inject_Z 100 + - (inject_Z (k * 1000 - budget * 1000) / inject_Z 1000)
   == inject_Z (100 - (k - budget)))%Q.
Proof.
  replace (k * 1000 - budget * 1000) with ((k - budget) * 1000) by lia.
  rewrite inject_Z_mult, Qdiv_mult_l by discriminate.
  unfold Qeq. simpl. lia.
Qed.

(** The shapes [k / n * 100] and [(1 - k / n) * 100] of the coverage checks. *)
Lemma fraction_range (k n : Z) :
  0 ≤ k ≤ n → 0 < n →
  (0 <= inject_Z k / inject_Z n * inject_Z 100)%Q
  ∧ (inject_Z k / inject_Z n * inject_Z 100 <= 100)%Q.
Proof.
  intros Hk Hn.
  assert (0 < inject_Z n)%Q as Hn' by (change 0%Q with (inject_Z 0); now rewrite <- Zlt_Qlt).
  assert (0 <= inject_Z k / inject_Z n)%Q as H0.
  { apply Qle_shift_div_l; [exact Hn'|]. rewrite Qmult_0_l.
    change 0%Q with (inject_Z 0). rewrite <- Zle_Qle. lia. }
  assert (inject_Z k / inject_Z n <= 1)%Q as H1.
  { apply Qle_shift_div_r; [exact Hn'|]. rewrite Qmult_1_l.
    rewrite <- Zle_Qle. lia. }
  change (inject_Z 100) with 100%Q. split; lra.
Qed.

Lemma is_score_fraction (k n : Z) :
  0 ≤ k ≤ n → 0 < n →
  is_score (Math_round (mul (div (int k) (int n)) (int 100))).
Proof.
  intros Hk Hn. rewrite div_int_nonzero by lia.
  destruct (fraction_range k n Hk Hn). now apply is_score_round.
Qed.

Lemma is_score_coverage (k n : Z) :
  0 ≤ k ≤ n → 0 < n →
  is_score (Math_round (mul (sub (int 1) (div (int k) (int n))) (int 100))).
Proof.
  intros Hk Hn. rewrite div_int_nonzero by lia.
  destruct (fraction_range k n Hk Hn) as [H0 H1].
  change (inject_Z 100) with 100%Q in H0, H1.
  apply is_score_round; simpl; change (inject_Z 100) with 100%Q;
    change (inject_Z 1) with 1%Q; lra.
Qed.

Lemma len_filter_le {A} (f : A → bool) (l : list A) :
  0 ≤ len (List.filter f l) ≤ len l.
Proof.
  unfold len. pose proof (List.filter_length_le f l). lia.
Qed.

Lemma budget_score (k budget : Z) :
  budget ≤ k →
  is_score (Math_max (int 0)
              (sub (int 100) (div (int (k * 1000 - budget * 1000)) (int 1000)))).
Proof.
  intros Hk. rewrite div_int_nonzero by lia.
  change (sub (int 100) (Num ?x)) with (Num (inject_Z 100 + - x)).
  eapply is_score_max0; [apply budget_int | lia].
Qed.

(** *** The simulated stylesheet total *)

Lemma css_total_fold (sheets : list Element) (acc : Z) :
  fold_left (fun totalSize sheet =>
      if str_truthy (href sheet)
         && negb (includes (href sheet) "fonts.googleapis.com")
      then totalSize + 5000
      else totalSize) sheets acc
  = acc + 5000 * len (List.filter css_counted sheets).
Proof.
  revert acc. induction sheets as [|sheet sheets IH]; intros acc; simpl.
  - unfold len. simpl. lia.
  - rewrite IH. unfold css_counted at 2.
    destruct (str_truthy (href sheet) && _); unfold len; simpl; lia.
Qed.

Lemma checkCSSSize_unfold (w : Window) :
  let n := len (List.filter css_counted (stylesheet_links w)) in
  checkCSSSize w =
  {| score := Some
       (if 5000 * n <? 10000 then int 100
        else Math_max (int 0)
               (sub (int 100) (div (int (5000 * n - 10000)) (int 1000))));
     detail := size (5000 * n) |}.
Proof.
  unfold checkCSSSize. cbv zeta. rewrite css_total_fold.
  rewrite Z.add_0_l. reflexivity.
Qed.

(** *** The heading scan *)

Lemma jumps_nonneg levels : ∀ prev, 0 ≤ jumps prev levels.
Proof.
  induction levels as [|l ls IH]; intros prev; simpl; [lia|].
  specialize (IH l). destruct (l >? prev + 1); lia.
Qed.

Local Ltac heading_case t :=
  let E := fresh "E" in
  destruct (String.eqb (localName _) t) eqn:E;
  [apply String.eqb_eq in E; rewrite E;
   split; [reflexivity | split; [lia | reflexivity]] |].

Lemma heading_match_spec (e : Element) :
  match heading_level e with
  | Some k =>
      matches heading_selector e = true ∧ 1 ≤ k ≤ 6
      ∧ parseInt_char (String.get 1 (tagName e)) = int k
  | None => matches heading_selector e = false
  end.
Proof.
  unfold heading_level, heading_selector, matches, matches_compound, tagName.
  cbn [existsb tag sel_tag sel_attr].
  heading_case "h1". heading_case "h2". heading_case "h3".
  heading_case "h4". heading_case "h5". heading_case "h6".
  reflexivity.
Qed.

Lemma lt_int_succ (prev k : Z) :
  lt (add (int prev) (int 1)) (int k) = (k >? prev + 1).
Proof.
  unfold lt, add, int. rewrite <- inject_Z_plus.
  destruct (k >? prev + 1) eqn:E.
  - apply Qlt_bool_true. rewrite <- Zlt_Qlt. lia.
  - apply Qlt_bool_false. rewrite <- Zle_Qle. lia.
Qed.

Lemma heading_fold (doc : Document) : ∀ (prev n : Z),
  snd (fold_left heading_step (querySelectorAll doc heading_selector)
         (int prev, n))
  = n + jumps prev (heading_levels doc).
Proof.
  induction doc as [|e doc IH]; intros prev n; [simpl; lia|].
  pose proof (heading_match_spec e) as He.
  unfold querySelectorAll, heading_levels in *.
  cbn [List.filter omap list_omap].
  destruct (heading_level e) as [k|].
  - destruct He as (-> & _ & Hk). cbn [fold_left heading_step jumps].
    rewrite Hk, lt_int_succ, IH.
    destruct (k >? prev + 1); lia.
  - rewrite He. apply IH.
Qed.

Lemma heading_levels_length (doc : Document) :
  len (heading_levels doc) = len (querySelectorAll doc heading_selector).
Proof.
  unfold len. f_equal.
  induction doc as [|e doc IH]; [reflexivity|].
  pose proof (heading_match_spec e) as He.
  unfold querySelectorAll, heading_levels in *.
  cbn [List.filter omap list_omap].
  destruct (heading_level e) as [k|].
  - destruct He as (-> & _). cbn [length]. now rewrite IH.
  - rewrite He. exact IH.
Qed.

Lemma checkHeadingStructure_unfold (w : Window) :
  let levels := heading_levels (document w) in
  let structureErrors := jumps 0 levels in
  checkHeadingStructure w =
  {| score := Some
       (if (len levels =? 0)%Z then int 100
        else Math_max (int 0)
               (sub (int 100) (mul (int structureErrors) (int 20))));
     detail := errors structureErrors |}.
Proof.
  cbv zeta. unfold checkHeadingStructure.
  pose proof (heading_fold (document w) 0 0) as Hf.
  fold heading_selector.
  destruct (fold_left _ _ _) as [last n]. simpl in Hf. subst n.
  rewrite heading_levels_length, Z.add_0_l. reflexivity.
Qed.

(** *** Each check keeps its score in range *)

Lemma checkImageOptimization_score w : has_score (checkImageOptimization w).
Proof.
  unfold checkImageOptimization. cbv zeta. eexists. split; [reflexivity|].
  match goal with |- context [len ?l =? 0] => pose proof (len_filter_le
    (fun img => naturalWidth img >? offsetWidth img * 2)
    (querySelectorAll (document w) [tag "img"])) as Hl end.
  destruct (len _ =? 0); [apply is_score_int; lia|].
  rewrite penalty_eq. eapply is_score_max0; [apply penalty_int | lia].
Qed.

Lemma checkCSSSize_score w : has_score (checkCSSSize w).
Proof.
  rewrite checkCSSSize_unfold. cbv zeta. eexists. split; [reflexivity|].
  pose proof (len_filter_le css_counted (stylesheet_links w)) as Hl.
  set (n := len (List.filter css_counted (stylesheet_links w))) in *.
  destruct (5000 * n <? 10000) eqn:E; [apply is_score_int; lia|].
  apply Z.ltb_ge in E.
  replace (5000 * n - 10000) with ((5 * n) * 1000 - 10 * 1000) by lia.
  apply budget_score. lia.
Qed.

Lemma checkJSSize_score w : has_score (checkJSSize w).
Proof.
  unfold checkJSSize. cbv zeta. eexists. split; [reflexivity|].
  set (n := len (querySelectorAll (document w) [tag_with "script" (HasAttr "src")])).
  destruct (n * 10000 <? 30000) eqn:E; [apply is_score_int; lia|].
  apply Z.ltb_ge in E.
  replace (n * 10000 - 30000) with ((10 * n) * 1000 - 30 * 1000) by lia.
  apply budget_score. lia.
Qed.

Lemma checkFontLoading_score w : has_score (checkFontLoading w).
Proof.
  unfold checkFontLoading. cbv zeta. eexists. split; [reflexivity|].
  destruct (len _ <=? 2); apply is_score_int; lia.
Qed.

Lemma checkHTTPS_score w : has_score (checkHTTPS w).
Proof.
  unfold checkHTTPS. eexists. split; [reflexivity|].
  destruct (String.eqb _ _); apply is_score_int; lia.
Qed.

Lemma checkConsoleErrors_score : has_score checkConsoleErrors.
Proof. eexists. split; [reflexivity|]. apply is_score_int; lia. Qed.

Lemma checkDeprecatedAPI_score w : has_score (checkDeprecatedAPI w).
Proof.
  unfold checkDeprecatedAPI. cbv zeta. eexists. split; [reflexivity|].
  destruct (len _ =? 0); apply is_score_int; lia.
Qed.

Lemma checkAltTags_score w : has_score (checkAltTags w).
Proof.
  unfold checkAltTags. cbv zeta. eexists. split; [reflexivity|].
  pose proof (len_filter_le (fun img => negb (str_truthy (alt img)))
    (querySelectorAll (document w) [tag "img"])) as Hl.
  destruct (len (querySelectorAll _ _) =? 0) eqn:E; [apply is_score_int; lia|].
  apply Z.eqb_neq in E. apply is_score_coverage; lia.
Qed.

Lemma checkAriaLabels_score w : has_score (checkAriaLabels w).
Proof.
  unfold checkAriaLabels. cbv zeta. eexists. split; [reflexivity|].
  match goal with |- context [List.filter ?f ?l] =>
    pose proof (len_filter_le f l) as Hl end.
  destruct (len (querySelectorAll _ _) =? 0) eqn:E; [apply is_score_int; lia|].
  apply Z.eqb_neq in E. apply is_score_coverage; lia.
Qed.

Lemma checkColorContrast_score : has_score checkColorContrast.
Proof. eexists. split; [reflexivity|]. apply is_score_int; lia. Qed.

Lemma checkMetaTags_score w : has_score (checkMetaTags w).
Proof.
  unfold checkMetaTags. cbv zeta. eexists. split; [reflexivity|].
  match goal with |- context [len (List.filter ?f ?l)] =>
    pose proof (len_filter_le f l) as Hl end.
  apply is_score_fraction; [exact Hl | reflexivity].
Qed.

Lemma checkHeadingStructure_score w : has_score (checkHeadingStructure w).
Proof.
  rewrite checkHeadingStructure_unfold. cbv zeta. eexists. split; [reflexivity|].
  pose proof (jumps_nonneg (heading_levels (document w)) 0) as Hj.
  destruct (len _ =? 0); [apply is_score_int; lia|].
  rewrite penalty_eq. eapply is_score_max0; [apply penalty_int | lia].
Qed.

Lemma checkSemanticHTML_score w : has_score (checkSemanticHTML w).
Proof.
  unfold checkSemanticHTML. cbv zeta. eexists. split; [reflexivity|].
  match goal with |- context [len (List.filter ?f ?l)] =>
    pose proof (len_filter_le f l) as Hl end.
  apply is_score_fraction; [exact Hl | reflexivity].
Qed.

Lemma runAudit_results (w : Window) (m : Metrics) :
  audit_results (snd (runAudit w m)) = all_checks w.
Proof. reflexivity. Qed.

(** The audit runs thirteen checks: four, three, three and three. *)
Lemma runAudit_check_count (w : Window) (m : Metrics) :
  length (audit_results (snd (runAudit w m))) = 13%nat.
Proof. now rewrite runAudit_results. Qed.

Lemma runAudit_stores (w : Window) (m : Metrics) :
  audit (fst (runAudit w m)) = Some (snd (runAudit w m)).
Proof. reflexivity. Qed.

Create HintDb check_scores.

#[local] Hint Resolve checkImageOptimization_score checkCSSSize_score
  checkJSSize_score checkFontLoading_score checkHTTPS_score
  checkConsoleErrors_score checkDeprecatedAPI_score checkAltTags_score
  checkAriaLabels_score checkColorContrast_score checkMetaTags_score
  checkHeadingStructure_score checkSemanticHTML_score : check_scores.

(** C3. For every state of the document, every check function returns a
    result whose score is present and is an integer in the closed interval
    from 0 to 100, and these are the results the audit stores; this covers
    the linear byte-budget penalties of the CSS-size and JS-size checks,
    which are never negative, above 100 or fractional. *)
Theorem check_scores_in_range (w : Window) (m : Metrics) :
  Forall has_score (all_checks w)
  ∧ audit_results (snd (runAudit w m)) = all_checks w.
Proof.
  split; [|reflexivity]. unfold all_checks.
  repeat apply List.Forall_cons; try apply List.Forall_nil;
    auto with check_scores.
Qed.

(** ** The CSS-size check *)

Lemma css_counted_exempt sheet : css_counted sheet = negb (css_exempt sheet).
Proof.
  unfold css_counted, css_exempt, str_truthy. now rewrite negb_orb.
Qed.

Lemma css_contribution_sum (sheets : list Element) :
  fold_right Z.add 0 (map css_contribution sheets)
  = 5000 * len (List.filter css_counted sheets).
Proof.
  induction sheets as [|sheet sheets IH]; [reflexivity|].
  simpl. rewrite IH, css_counted_exempt. unfold css_contribution.
  destruct (css_exempt sheet); unfold len; simpl; lia.
Qed.

Lemma css_budget_value (n : Z) :
  2 ≤ n →
  num_eq
    (Math_max (int 0) (sub (int 100) (div (int (5000 * n - 10000)) (int 1000))))
    (Num (Qmax 0 (100 - inject_Z (5000 * n - 10000) / 1000))).
Proof.
  intros Hn. rewrite div_int_nonzero by lia.
  change (sub (int 100) (Num ?x)) with (Num (inject_Z 100 + - x)).
  replace (5000 * n - 10000) with ((5 * n) * 1000 - 10 * 1000) by lia.
  pose proof (budget_int (5 * n) 10) as Hb.
  pose proof (Math_max_0_eq _ _ Hb) as Hm.
  destruct (Math_max _ _) as [q| | |]; simpl in Hm |- *; try contradiction.
  rewrite Hm. change (inject_Z 1000) with 1000%Q in Hb.
  change (inject_Z 100) with 100%Q in Hb. unfold Qminus. rewrite Hb.
  destruct (Z.max_spec 0 (100 - (5 * n - 10))) as [[Hlt ->]|[Hle ->]].
  - rewrite Q.max_r; [reflexivity|].
    change 0%Q with (inject_Z 0). rewrite <- Zle_Qle. lia.
  - rewrite Q.max_l; [reflexivity|].
    change 0%Q with (inject_Z 0). rewrite <- Zle_Qle. lia.
Qed.

(** C10. In the CSS-size check a stylesheet link with no href or with a
    Google Fonts href contributes 0 bytes and any other stylesheet link
    5000 bytes; with [n] counted links the score is 100 when [n <= 2] and
    [max(0, 100 - (5000 n - 10000) / 1000)] otherwise; a page whose
    stylesheet links all point at Google Fonts scores 100. *)
Theorem css_size_score (w : Window) :
  let sheets := stylesheet_links w in
  let n := len (List.filter (fun sheet => negb (css_exempt sheet)) sheets) in
  detail (checkCSSSize w) = size (fold_right Z.add 0 (map css_contribution sheets))
  ∧ fold_right Z.add 0 (map css_contribution sheets) = 5000 * n
  ∧ (∃ s, score (checkCSSSize w) = Some s
        ∧ num_eq s
            (if n <=? 2 then int 100
             else Num (Qmax 0 (100 - inject_Z (5000 * n - 10000) / 1000))))
  ∧ (Forall (fun sheet => includes (href sheet) "fonts.googleapis.com" = true)
       sheets →
     score (checkCSSSize w) = Some (int 100)).
Proof.
  cbv zeta.
  assert (List.filter (fun sheet => negb (css_exempt sheet)) (stylesheet_links w)
          = List.filter css_counted (stylesheet_links w)) as ->.
  { apply List.filter_ext. intros sheet. now rewrite css_counted_exempt. }
  rewrite checkCSSSize_unfold, css_contribution_sum. cbv zeta. simpl.
  pose proof (len_filter_le css_counted (stylesheet_links w)) as Hl.
  set (n := len (List.filter css_counted (stylesheet_links w))) in *.
  repeat split.
  - eexists. split; [reflexivity|].
    destruct (5000 * n <? 10000) eqn:E.
    + apply Z.ltb_lt in E. rewrite (proj2 (Z.leb_le n 2)) by lia.
      apply num_eq_refl.
    + apply Z.ltb_ge in E. destruct (n <=? 2) eqn:E2.
      * apply Z.leb_le in E2. replace n with 2 by lia. vm_compute. reflexivity.
      * apply css_budget_value. lia.
  - intros Hg. subst n.
    assert (List.filter css_counted (stylesheet_links w) = []) as ->.
    { clear Hl. induction Hg as [|sheet sheets Hs Hg IH]; [reflexivity|].
      simpl. rewrite css_counted_exempt. unfold css_exempt. rewrite Hs.
      rewrite orb_true_r. simpl. exact IH. }
    reflexivity.
Qed.

Lemma css_size_score_witness :
  score (checkCSSSize
           (page [stylesheet "https://fonts.googleapis.com/css?family=Inter"]))
  = Some (int 100).
Proof.
  apply (css_size_score
           (page [stylesheet "https://fonts.googleapis.com/css?family=Inter"])).
  repeat constructor.
Defined.

(** ** The heading-structure check *)

Lemma jumps_skips (levels : list Z) :
  jumps 0 levels
  = match levels with
    | first :: _ => (if first >? 1 then 1 else 0) + skips levels
    | [] => 0
    end.
Proof.
  destruct levels as [|first rest]; [reflexivity|]. simpl jumps.
  change (0 + 1) with 1. f_equal.
  revert first. induction rest as [|b rest IH]; intros first; [reflexivity|].
  simpl. now rewrite IH.
Qed.

Lemma heading_score_value (w : Window) :
  ∃ s, score (checkHeadingStructure w) = Some s
       ∧ num_eq s
           (int (Z.max 0 (100 - 20 * jumps 0 (heading_levels (document w))))).
Proof.
  rewrite checkHeadingStructure_unfold. cbv zeta. eexists. split; [reflexivity|].
  destruct (len _ =? 0) eqn:E.
  - apply Z.eqb_eq in E. destruct (heading_levels (document w)); [|discriminate].
    apply num_eq_refl.
  - rewrite penalty_eq.
    replace (20 * jumps 0 (heading_levels (document w)))
      with (jumps 0 (heading_levels (document w)) * 20) by lia.
    apply Math_max_0_eq, penalty_int.
Qed.

(** C5, as amended. The heading-structure check returns
    [max(0, 100 - 20 v)], where [v] counts the headings whose level exceeds
    by more than one the level of the heading immediately before them, the
    first heading being compared with level 0: a first heading other than
    h1 is counted as well.  A page whose headings are h1, h2, h4 has one
    violation and scores 80; h1, h2, h3 has none and scores 100. *)
Theorem heading_structure_score (w : Window) :
  let levels := heading_levels (document w) in
  let v := jumps 0 levels in
  detail (checkHeadingStructure w) = errors v
  ∧ (∃ s, score (checkHeadingStructure w) = Some s
          ∧ num_eq s (int (Z.max 0 (100 - 20 * v))))
  ∧ v = match levels with
        | first :: _ => (if first >? 1 then 1 else 0) + skips levels
        | [] => 0
        end
  ∧ (levels = [1; 2; 4] →
     v = 1 ∧ ∃ s, score (checkHeadingStructure w) = Some s ∧ num_eq s (int 80))
  ∧ (levels = [1; 2; 3] →
     v = 0 ∧ ∃ s, score (checkHeadingStructure w) = Some s ∧ num_eq s (int 100)).
Proof.
  cbv zeta. pose proof (heading_score_value w) as Hs.
  split; [now rewrite checkHeadingStructure_unfold|].
  split; [exact Hs|]. split; [apply jumps_skips|].
  split; intros E; rewrite E in Hs |- *; (split; [reflexivity | exact Hs]).
Qed.

Lemma heading_structure_score_witness :
  (jumps 0 [1; 2; 4] = 1
   ∧ ∃ s, score (checkHeadingStructure
                   (page [element "h1" []; element "h2" []; element "h4" []]))
          = Some s ∧ num_eq s (int 80))
  ∧ (jumps 0 [1; 2; 3] = 0
     ∧ ∃ s, score (checkHeadingStructure
                     (page [element "h1" []; element "p" []; element "h2" [];
                            element "h3" []]))
            = Some s ∧ num_eq s (int 100)).
Proof.
  split.
  - apply (heading_structure_score
             (page [element "h1" []; element "h2" []; element "h4" []])).
    reflexivity.
  - apply (heading_structure_score
             (page [element "h1" []; element "p" []; element "h2" [];
                    element "h3" []])).
    reflexivity.
Defined.

(** C5 as stated fails: on a page whose only heading is an h2 no heading
    exceeds its predecessor, yet the check counts one violation and
    returns 80. *)
Lemma heading_structure_counterexample :
  ¬ (∀ w : Window,
       ∃ s, score (checkHeadingStructure w) = Some s
            ∧ num_eq s
                (int (Z.max 0 (100 - 20 * skips (heading_levels (document w)))))).
Proof.
  intros H. destruct (H (page [element "h2" []])) as (s & Hs & Heq).
  vm_compute in Hs. inversion Hs; subst s. vm_compute in Heq. discriminate.
Qed.

(** ** Empty collections *)

(** C6. Each check that averages over a collection of elements returns
    100 when the collection is empty, and none of them ever returns NaN;
    the alt-text check on four images of which one lacks alt text
    returns 75. *)
Theorem empty_collection_scores (w : Window) :
  let d := document w in
  (querySelectorAll d img_selector = [] →
   score (checkImageOptimization w) = Some (int 100)
   ∧ score (checkAltTags w) = Some (int 100))
  ∧ (querySelectorAll d interactive_selector = [] →
     score (checkAriaLabels w) = Some (int 100))
  ∧ (querySelectorAll d heading_selector = [] →
     score (checkHeadingStructure w) = Some (int 100))
  ∧ Forall (fun r => ∃ s, score r = Some s ∧ s ≠ NaN)
      [checkImageOptimization w; checkAltTags w; checkAriaLabels w;
       checkHeadingStructure w]
  ∧ (∀ images,
       querySelectorAll d img_selector = images →
       len images = 4 →
       len (List.filter (fun img => negb (str_truthy (alt img))) images) = 1 →
       score (checkAltTags w) = Some (int 75)).
Proof.
  cbv zeta. split; [|split; [|split; [|split]]].
  - intros H. split.
    + unfold checkImageOptimization. fold img_selector. now rewrite H.
    + unfold checkAltTags. fold img_selector. now rewrite H.
  - intros H. unfold checkAriaLabels. fold interactive_selector. now rewrite H.
  - intros H. unfold checkHeadingStructure. fold heading_selector. now rewrite H.
  - repeat apply List.Forall_cons; [ | | | | apply List.Forall_nil].
    + destruct (checkImageOptimization_score w) as (s & Hs & Hr).
      exists s. split; [exact Hs | now apply is_score_not_NaN].
    + destruct (checkAltTags_score w) as (s & Hs & Hr).
      exists s. split; [exact Hs | now apply is_score_not_NaN].
    + destruct (checkAriaLabels_score w) as (s & Hs & Hr).
      exists s. split; [exact Hs | now apply is_score_not_NaN].
    + destruct (checkHeadingStructure_score w) as (s & Hs & Hr).
      exists s. split; [exact Hs | now apply is_score_not_NaN].
  - intros images Hq H4 H1. unfold checkAltTags. fold img_selector.
    rewrite Hq, H4, H1. reflexivity.
Qed.

Lemma empty_collection_scores_witness :
  (score (checkImageOptimization (page [])) = Some (int 100)
   ∧ score (checkAltTags (page [])) = Some (int 100))
  ∧ score (checkAriaLabels (page [])) = Some (int 100)
  ∧ score (checkHeadingStructure (page [])) = Some (int 100)
  ∧ score (checkAltTags (page four_images)) = Some (int 75).
Proof.
  destruct (empty_collection_scores (page [])) as (H1 & H2 & H3 & _ & _).
  destruct (empty_collection_scores (page four_images)) as (_ & _ & _ & _ & H5).
  split; [apply H1; reflexivity|].
  split; [apply H2; reflexivity|].
  split; [apply H3; reflexivity|].
  eapply H5; reflexivity.
Defined.

(** ** Category scores *)

Lemma or_default_contribution (r : AuditResult) :
  finite_or_absent r →
  ∃ q, or_default (score r) (int 0) = Num q ∧ (q == contribution r)%Q.
Proof.
  unfold finite_or_absent, contribution, or_default.
  destruct (score r) as [[q| | |]|]; try contradiction; intros _.
  - simpl. destruct (Qeq_bool q 0) eqn:E; simpl.
    + exists (inject_Z 0). split; [reflexivity|].
      apply Qeq_bool_eq in E. now rewrite E.
    + exists q. split; reflexivity.
  - exists (inject_Z 0). split; reflexivity.
Qed.

Lemma sum_scores (results : list AuditResult) : ∀ acc : Q,
  Forall finite_or_absent results →
  ∃ q, fold_left (fun sum score => add sum score)
         (map (fun item => or_default (score item) (int 0)) results) (Num acc)
       = Num q
       ∧ (q == acc + Qsum (map contribution results))%Q.
Proof.
  induction results as [|r results IH]; intros acc Hf; simpl.
  - exists acc. split; [reflexivity | ring].
  - inversion Hf as [|? ? Hr Hrest]; subst.
    destruct (or_default_contribution r Hr) as (q & -> & Hq). simpl.
    destruct (IH (acc + q)%Q Hrest) as (q' & -> & Hq').
    exists q'. split; [reflexivity|]. rewrite Hq', Hq. ring.
Qed.

Lemma round_half_up_proper q1 q2 z :
  (q1 == q2)%Q → round_half_up q1 z → round_half_up q2 z.
Proof. unfold round_half_up. intros ->. auto. Qed.

Lemma category_score_rounds (cat : AuditCategory) :
  cat ≠ [] →
  Forall finite_or_absent (Object_values cat) →
  ∃ z, calculateCategoryScore cat = int z
       ∧ round_half_up (mean (map contribution (Object_values cat))) z.
Proof.
  intros Hne Hf. unfold calculateCategoryScore. cbv zeta.
  destruct (sum_scores (Object_values cat) (inject_Z 0) Hf) as (q & Hq & Hsum).
  change (Num (inject_Z 0)) with (int 0) in Hq. rewrite Hq.
  change (inject_Z 0) with 0%Q in Hsum.
  assert (len (map (fun item => or_default (score item) (int 0))
                 (Object_values cat)) = len (Object_values cat)) as ->.
  { unfold len. now rewrite length_map. }
  assert (len (Object_values cat) ≠ 0) as Hn.
  { unfold len, Object_values. rewrite length_map.
    destruct cat; [contradiction | simpl; lia]. }
  unfold div, int at 1.
  rewrite Qeq_bool_inject_Z_0 by exact Hn.
  eexists. split; [reflexivity|].
  eapply round_half_up_proper; [|apply Math_round_spec].
  unfold mean. unfold len. rewrite length_map.
  rewrite Hsum. now rewrite Qplus_0_l.
Qed.

(** The source divides 0 by 0 on a category without checks. *)
Lemma category_score_empty : calculateCategoryScore [] = NaN.
Proof. reflexivity. Qed.

Lemma Qsum_Permutation (l1 l2 : list Q) :
  Permutation l1 l2 → (Qsum l1 == Qsum l2)%Q.
Proof.
  induction 1 as [|x l l' _ IH|x y l|l l' l'' _ IH1 _ IH2]; simpl.
  - reflexivity.
  - now rewrite IH.
  - ring.
  - now rewrite IH1.
Qed.

(** C2. On every category with at least one check whose scores are
    numbers or absent, [calculateCategoryScore] returns the integer
    nearest to the arithmetic mean of the scores, ties rounded up, an
    absent score counting as 0; checks scoring 100, 80 and 60, in any
    order, give 80. *)
Theorem category_score_rounded_mean (cat : AuditCategory) :
  (cat ≠ [] →
   Forall finite_or_absent (Object_values cat) →
   ∃ z, calculateCategoryScore cat = int z
        ∧ round_half_up (mean (map contribution (Object_values cat))) z)
  ∧ (Permutation (map score (Object_values cat))
       [Some (int 100); Some (int 80); Some (int 60)] →
     calculateCategoryScore cat = int 80).
Proof.
  split; [apply category_score_rounds|].
  intros Hp.
  assert (cat ≠ []) as Hne.
  { intros ->. apply Permutation_length in Hp. discriminate. }
  assert (Forall finite_or_absent (Object_values cat)) as Hf.
  { apply Forall_forall. intros r Hr. unfold finite_or_absent.
    assert (score r ∈ [Some (int 100); Some (int 80); Some (int 60)]) as Hin.
    { rewrite <- Hp. apply list_elem_of_fmap. exists r. split; [reflexivity|].
      exact Hr. }
    set_unfold in Hin. destruct Hin as [->|[->|[->|[]]]]; exact I. }
  destruct (category_score_rounds cat Hne Hf) as (z & -> & Hz).
  f_equal. apply (round_half_up_unique _ _ _ Hz).
  assert (map contribution (Object_values cat)
          = map score_value (map score (Object_values cat))) as ->.
  { rewrite map_map. reflexivity. }
  apply round_half_up_proper with (q1 := 80%Q).
  - unfold mean. unfold len. rewrite !length_map.
    rewrite (Qsum_Permutation _ _ (Permutation_map score_value Hp)).
    replace (length (Object_values cat)) with 3%nat; [reflexivity|].
    apply Permutation_length in Hp. rewrite length_map in Hp. now rewrite Hp.
  - unfold round_half_up. split; [apply Qle_bool_iff | apply Qlt_bool_true];
      vm_compute; reflexivity.
Qed.

Lemma category_score_rounded_mean_witness :
  (∃ z, calculateCategoryScore
          [("a", result_of (Some (int 70))); ("b", result_of None)] = int z
        ∧ round_half_up (mean [70; 0]%Q) z)
  ∧ calculateCategoryScore
      [("x", result_of (Some (int 60))); ("y", result_of (Some (int 100)));
       ("z", result_of (Some (int 80)))] = int 80.
Proof.
  split.
  - apply (category_score_rounded_mean
             [("a", result_of (Some (int 70))); ("b", result_of None)]).
    + discriminate.
    + repeat constructor.
  - apply (category_score_rounded_mean
             [("x", result_of (Some (int 60))); ("y", result_of (Some (int 100)));
              ("z", result_of (Some (int 80)))]).
    simpl. apply perm_trans with [Some (int 100); Some (int 60); Some (int 80)].
    + apply perm_swap.
    + apply perm_skip, perm_swap.
Defined.

(** ** The score set *)

(** C4. While the metrics store has no audit entry, [calculateScores]
    returns exactly the placeholder scores 85, 90, 88, 92 and 89. *)
Theorem placeholder_scores (m : Metrics) :
  audit m = None → calculateScores m = placeholder.
Proof. intros H. unfold calculateScores. now rewrite H. Qed.

Lemma placeholder_scores_witness : calculateScores empty_metrics = placeholder.
Proof. apply (placeholder_scores empty_metrics). reflexivity. Defined.

Lemma has_score_finite r : has_score r → finite_or_absent r.
Proof.
  intros (s & Hs & z & _ & Hz). unfold finite_or_absent. rewrite Hs.
  destruct s; simpl in Hz; try contradiction. exact I.
Qed.

Lemma runAudit_well_formed (w : Window) (m : Metrics) :
  well_formed (snd (runAudit w m)).
Proof.
  assert (Forall finite_or_absent (all_checks w)) as Hs.
  { unfold all_checks.
    repeat apply List.Forall_cons; try apply List.Forall_nil;
      apply has_score_finite; auto with check_scores. }
  unfold all_checks in Hs.
  repeat match goal with
         | H : Forall _ (_ :: _) |- _ =>
             apply Forall_cons in H; destruct H as [? H]
         end.
  unfold well_formed. cbn.
  repeat apply List.Forall_cons; try apply List.Forall_nil;
    (split; [discriminate |
             repeat apply List.Forall_cons; try apply List.Forall_nil;
             assumption]).
Qed.

Lemma overall_two_stage (m : Metrics) (a : Audit) :
  audit m = Some a →
  well_formed a →
  ∃ zp za zb zs z : Z,
    (calculateCategoryScore (performance a) = int zp
     ∧ round_half_up (mean (map contribution (Object_values (performance a)))) zp)
    ∧ (calculateCategoryScore (accessibility a) = int za
       ∧ round_half_up (mean (map contribution (Object_values (accessibility a)))) za)
    ∧ (calculateCategoryScore (bestPractices a) = int zb
       ∧ round_half_up (mean (map contribution (Object_values (bestPractices a)))) zb)
    ∧ (calculateCategoryScore (seo a) = int zs
       ∧ round_half_up (mean (map contribution (Object_values (seo a)))) zs)
    ∧ ScoreSet.overall (calculateScores m) = int z
    ∧ round_half_up (mean [inject_Z zp; inject_Z za; inject_Z zb; inject_Z zs]) z.
Proof.
  intros Ha Hwf. unfold calculateScores. rewrite Ha. cbv zeta.
  unfold well_formed in Hwf.
  repeat match goal with
         | H : Forall _ (_ :: _) |- _ =>
             apply Forall_cons in H; destruct H as [[? ?] H]
         end.
  destruct (category_score_rounds (performance a)) as (zp & Ep & Hp); try assumption.
  destruct (category_score_rounds (accessibility a)) as (za & Ea & Hac); try assumption.
  destruct (category_score_rounds (bestPractices a)) as (zb & Eb & Hb); try assumption.
  destruct (category_score_rounds (seo a)) as (zs & Es & Hs); try assumption.
  exists zp, za, zb, zs. eexists.
  rewrite Ep, Ea, Eb, Es. cbn [ScoreSet.overall].
  repeat (split; [split; [reflexivity | assumption]|]).
  change (div (add (add (add (int zp) (int za)) (int zb)) (int zs)) (int 4))
    with (Num ((inject_Z zp + inject_Z za + inject_Z zb + inject_Z zs)
               / inject_Z 4)).
  split; [reflexivity|].
  eapply round_half_up_proper; [|apply Math_round_spec].
  unfold mean, Qsum, len. simpl. rewrite Qplus_0_r, !Qplus_assoc. reflexivity.
Qed.

(** Every audit that [runAudit] stores meets the conditions above. *)
Lemma overall_after_runAudit (w : Window) (m0 : Metrics) :
  ∃ zp za zb zs z : Z,
    ScoreSet.performance (calculateScores (fst (runAudit w m0))) = int zp
    ∧ ScoreSet.accessibility (calculateScores (fst (runAudit w m0))) = int za
    ∧ ScoreSet.bestPractices (calculateScores (fst (runAudit w m0))) = int zb
    ∧ ScoreSet.seo (calculateScores (fst (runAudit w m0))) = int zs
    ∧ ScoreSet.overall (calculateScores (fst (runAudit w m0))) = int z
    ∧ round_half_up (mean [inject_Z zp; inject_Z za; inject_Z zb; inject_Z zs]) z.
Proof.
  destruct (overall_two_stage (fst (runAudit w m0)) (snd (runAudit w m0))
              (runAudit_stores w m0) (runAudit_well_formed w m0))
    as (zp & za & zb & zs & z & [Hp _] & [Ha _] & [Hb _] & [Hs _] & Ho & Hr).
  exists zp, za, zb, zs, z. unfold calculateScores in *.
  rewrite runAudit_stores in *. cbv zeta in *.
  cbn [ScoreSet.performance ScoreSet.accessibility ScoreSet.bestPractices
       ScoreSet.seo ScoreSet.overall] in *.
  auto 10.
Qed.

(** C1. Once an audit is stored, the overall score is the mean of the
    four category scores rounded half up, each category score being
    itself the rounded mean of its checks' scores; and there is a page on
    which this differs by a full point from the rounded mean of all leaf
    scores (81 against 82). *)
Theorem overall_is_two_stage (m : Metrics) (a : Audit) :
  audit m = Some a →
  well_formed a →
  (∃ zp za zb zs z : Z,
     (calculateCategoryScore (performance a) = int zp
      ∧ round_half_up (mean (map contribution (Object_values (performance a)))) zp)
     ∧ (calculateCategoryScore (accessibility a) = int za
        ∧ round_half_up (mean (map contribution (Object_values (accessibility a)))) za)
     ∧ (calculateCategoryScore (bestPractices a) = int zb
        ∧ round_half_up (mean (map contribution (Object_values (bestPractices a)))) zb)
     ∧ (calculateCategoryScore (seo a) = int zs
        ∧ round_half_up (mean (map contribution (Object_values (seo a)))) zs)
     ∧ ScoreSet.overall (calculateScores m) = int z
     ∧ round_half_up (mean [inject_Z zp; inject_Z za; inject_Z zb; inject_Z zs]) z)
  ∧ (∃ (w : Window) (two_stage single_stage : Z),
       let m' := fst (runAudit w empty_metrics) in
       let a' := snd (runAudit w empty_metrics) in
       audit m' = Some a'
       ∧ ScoreSet.overall (calculateScores m') = int two_stage
       ∧ round_half_up (mean (leaf_scores a')) single_stage
       ∧ 1 ≤ Z.abs (two_stage - single_stage)).
Proof.
  intros Ha Hwf. split; [now apply overall_two_stage|].
  exists lone_h2, 81, 82. cbv zeta.
  split; [reflexivity|]. split; [vm_compute; reflexivity|].
  split; [|lia].
  unfold round_half_up. split; [apply Qle_bool_iff | apply Qlt_bool_true];
    vm_compute; reflexivity.
Qed.

Lemma overall_is_two_stage_witness :
  ∃ zp za zb zs z : Z,
    let a := snd (runAudit lone_h2 empty_metrics) in
    (calculateCategoryScore (performance a) = int zp
     ∧ round_half_up (mean (map contribution (Object_values (performance a)))) zp)
    ∧ (calculateCategoryScore (accessibility a) = int za
       ∧ round_half_up (mean (map contribution (Object_values (accessibility a)))) za)
    ∧ (calculateCategoryScore (bestPractices a) = int zb
       ∧ round_half_up (mean (map contribution (Object_values (bestPractices a)))) zb)
    ∧ (calculateCategoryScore (seo a) = int zs
       ∧ round_half_up (mean (map contribution (Object_values (seo a)))) zs)
    ∧ ScoreSet.overall (calculateScores (fst (runAudit lone_h2 empty_metrics)))
      = int z
    ∧ round_half_up (mean [inject_Z zp; inject_Z za; inject_Z zb; inject_Z zs]) z.
Proof.
  apply (overall_is_two_stage (fst (runAudit lone_h2 empty_metrics))
           (snd (runAudit lone_h2 empty_metrics))).
  - reflexivity.
  - unfold well_formed. cbn.
    repeat apply List.Forall_cons; try apply List.Forall_nil;
      (split; [discriminate |
               repeat apply List.Forall_cons; try apply List.Forall_nil;
               exact I]).
Defined.

(** ** Recommendations *)

Lemma opt_lt_finite (q : Q) (bound : Z) :
  opt_lt (Some (Num q)) (int bound) = true ↔ (q < inject_Z bound)%Q.
Proof. apply Qlt_bool_true. Qed.

Lemma recommendations_of_audit (m : Metrics) (a : Audit)
    (io css alt_ meta : AuditResult) :
  audit m = Some a →
  assoc "imageOptimization" (performance a) = Some io →
  assoc "cssSize" (performance a) = Some css →
  assoc "altTags" (accessibility a) = Some alt_ →
  assoc "metaTags" (seo a) = Some meta →
  generateRecommendations m = Some (expected_recommendations io css alt_ meta).
Proof.
  intros Ha Hio Hcss Halt Hmeta.
  unfold generateRecommendations, expected_recommendations, advisories, push_if.
  rewrite Ha, Hio, Hcss, Halt, Hmeta. simpl.
  destruct (opt_lt (score io) _), (opt_lt (score css) _),
    (opt_lt (score alt_) _), (opt_lt (score meta) _); reflexivity.
Qed.

(** C7. Without an audit there are no recommendations.  With one,
    [generateRecommendations] returns exactly the advisory strings whose
    conditions hold (image-optimization score below 80, CSS-size score
    below 80, alt-text score below 100, meta-tags score below 100), one
    fixed string each, in that order, so at most four; this covers every
    audit that [runAudit] stores. *)
Theorem recommendations_exact (m : Metrics) :
  (audit m = None → generateRecommendations m = Some [])
  ∧ (∀ (a : Audit) (io css alt_ meta : AuditResult),
       audit m = Some a →
       assoc "imageOptimization" (performance a) = Some io →
       assoc "cssSize" (performance a) = Some css →
       assoc "altTags" (accessibility a) = Some alt_ →
       assoc "metaTags" (seo a) = Some meta →
       generateRecommendations m
       = Some (expected_recommendations io css alt_ meta)
       ∧ (length (expected_recommendations io css alt_ meta) ≤ 4)%nat)
  ∧ (∀ w : Window,
       generateRecommendations (fst (runAudit w m))
       = Some (expected_recommendations (checkImageOptimization w)
                 (checkCSSSize w) (checkAltTags w) (checkMetaTags w))).
Proof.
  split; [|split].
  - intros Ha. unfold generateRecommendations. now rewrite Ha.
  - intros a io css alt_ meta Ha Hio Hcss Halt Hmeta.
    split; [now apply (recommendations_of_audit m a)|].
    unfold expected_recommendations. rewrite length_map.
    etransitivity; [apply List.filter_length_le | reflexivity].
  - intros w. now apply (recommendations_of_audit _ (snd (runAudit w m))).
Qed.

Lemma recommendations_exact_witness :
  generateRecommendations empty_metrics = Some []
  ∧ generateRecommendations (fst (runAudit bare_image_page empty_metrics))
    = Some [rec_alt; rec_meta].
Proof.
  split.
  - apply (recommendations_exact empty_metrics). reflexivity.
  - destruct (recommendations_exact (fst (runAudit bare_image_page empty_metrics)))
      as (_ & H & _).
    destruct (H (snd (runAudit bare_image_page empty_metrics))
                (checkImageOptimization bare_image_page)
                (checkCSSSize bare_image_page)
                (checkAltTags bare_image_page)
                (checkMetaTags bare_image_page)
                eq_refl eq_refl eq_refl eq_refl eq_refl) as [E _].
    exact E.
Defined.

(** ** Resource grouping *)

Lemma of_type_snoc t rs r :
  of_type t (rs ++ [r])
  = of_type t rs ++ (if String.eqb (type r) t then [r] else []).
Proof. unfold of_type. rewrite List.filter_app. reflexivity. Qed.

Lemma total_size_snoc rs r : total_size (rs ++ [r]) = total_size rs + rsize r.
Proof.
  unfold total_size. induction rs as [|x rs IH]; simpl; [lia|].
  rewrite IH. lia.
Qed.

Lemma len_snoc {A} (l : list A) (x : A) : len (l ++ [x]) = len l + 1.
Proof. unfold len. rewrite length_app. simpl. lia. Qed.

Lemma group_step_grouped processed acc r :
  grouped processed acc → grouped (processed ++ [r]) (group_step acc r).
Proof.
  intros Hg t. specialize (Hg t). unfold group_step. rewrite of_type_snoc.
  destruct (String.eqb (type r) t) eqn:E.
  - apply String.eqb_eq in E. subst t. rewrite lookup_alter_eq.
    destruct (acc !! type r) as [s|] eqn:Hs.
    + rewrite Hs. simpl. destruct Hg as (Hne & Hc & Hs' & Hi).
      rewrite len_snoc, total_size_snoc, Hc, Hs', Hi.
      split; [|repeat split].
      intros Hnil. now apply app_eq_nil in Hnil as [_ ?].
    + rewrite lookup_insert_eq. simpl. rewrite Hg.
      split; [discriminate|]. split; [reflexivity|].
      split; [unfold total_size; simpl; lia | reflexivity].
  - apply String.eqb_neq in E. rewrite lookup_alter_ne by exact E.
    rewrite app_nil_r.
    destruct (acc !! type r); [exact Hg|].
    now rewrite lookup_insert_ne by exact E.
Qed.

Lemma fold_group_grouped (rs : list ResourceEntry) :
  grouped rs (fold_left group_step rs ∅).
Proof.
  induction rs as [|r rs IH] using rev_ind.
  - intros t. simpl. now rewrite lookup_empty.
  - rewrite fold_left_app. simpl. now apply group_step_grouped.
Qed.

Lemma sum_durations (rs : list ResourceEntry) : ∀ acc : Q,
  (fold_left (fun sum item => sum + duration item) rs acc
   == acc + Qsum (map duration rs))%Q.
Proof.
  induction rs as [|r rs IH]; intros acc; simpl; [ring|].
  rewrite IH. ring.
Qed.

Lemma resource_summary_lookup (rs : list ResourceEntry) (t : string) :
  match (with_average <$> fold_left group_step rs ∅) !! t with
  | None => of_type t rs = []
  | Some s =>
      of_type t rs ≠ []
      ∧ count s = len (of_type t rs)
      ∧ totalSize s = total_size (of_type t rs)
      ∧ num_eq (averageTime s) (Num (mean (map duration (of_type t rs))))
      ∧ items s = of_type t rs
  end.
Proof.
  pose proof (fold_group_grouped rs t) as Hg. rewrite lookup_fmap.
  destruct (fold_left group_step rs ∅ !! t) as [s|];
    cbn [fmap option_fmap option_map]; [|exact Hg].
  destruct Hg as (Hne & Hc & Hs & Hi).
  unfold with_average; cbn [count totalSize averageTime items].
  split; [exact Hne|]. split; [exact Hc|]. split; [exact Hs|].
  split; [|exact Hi].
  rewrite Hc, Hi. rewrite div_num_nonzero.
  - cbn [num_eq]. unfold mean. rewrite sum_durations, Qplus_0_l.
    unfold len. now rewrite length_map.
  - unfold len. destruct (of_type t rs); [contradiction | simpl; lia].
Qed.

(** C9. When resource timing is available, [measureResources] stores one
    summary bucket per type that occurs among the entries and none for
    any other type; a bucket's count is the number of entries of its
    type, its totalSize the sum of their sizes, its averageTime the
    arithmetic mean of their durations and its items those entries in
    order.  Two script entries lasting 100 ms and 300 ms with sizes 10
    and 20 give count 2, totalSize 30, averageTime 200. *)
Theorem resource_summary_buckets (w : Window) (m : Metrics)
    (entries : list PerformanceResourceTiming) :
  performance_entries w = Some entries →
  let rs := map to_entry entries in
  resources (fst (measureResources w m)) = Some rs
  ∧ ∃ summary : gmap string Summary,
      resourceSummary (fst (measureResources w m)) = Some summary
      ∧ (∀ t : string,
           match summary !! t with
           | None => of_type t rs = []
           | Some s =>
               of_type t rs ≠ []
               ∧ count s = len (of_type t rs)
               ∧ totalSize s = total_size (of_type t rs)
               ∧ num_eq (averageTime s)
                   (Num (mean (map duration (of_type t rs))))
               ∧ items s = of_type t rs
           end)
      ∧ (∀ url1 url2 : string,
           entries = [script_entry url1 100 10; script_entry url2 300 20] →
           ∃ s, summary !! "script" = Some s
                ∧ count s = 2 ∧ totalSize s = 30
                ∧ num_eq (averageTime s) (int 200)
                ∧ dom summary = {["script"]}).
Proof.
  intros Hp. cbv zeta. unfold measureResources. rewrite Hp. simpl.
  split; [reflexivity|]. eexists. split; [reflexivity|].
  split; [apply resource_summary_lookup|].
  intros url1 url2 ->.
  pose proof (resource_summary_lookup
                (map to_entry [script_entry url1 100 10; script_entry url2 300 20]))
    as Hl.
  pose proof (Hl "script") as Hs.
  destruct (_ !! "script") as [s|]; [|discriminate Hs].
  exists s. split; [reflexivity|].
  destruct Hs as (_ & Hc & Ht & Ha & _).
  split; [exact Hc|]. split; [exact Ht|]. split.
  - destruct (averageTime s); simpl in Ha |- *; try contradiction.
    rewrite Ha. reflexivity.
  - apply set_eq. intros t. rewrite elem_of_dom, elem_of_singleton.
    specialize (Hl t). split.
    + intros [s' Hs']. rewrite Hs' in Hl. destruct Hl as [Hne _].
      destruct (String.eqb_spec "script" t) as [<-|Hneq]; [reflexivity|].
      exfalso. apply Hne. unfold of_type.
      cbn [map List.filter to_entry type script_entry initiatorType].
      apply String.eqb_neq in Hneq. now rewrite Hneq.
    + intros ->. destruct (_ !! "script"); [eauto | discriminate Hl].
Qed.

Lemma resource_summary_buckets_witness :
  ∃ summary : gmap string Summary,
    resourceSummary (fst (measureResources two_scripts empty_metrics))
    = Some summary
    ∧ ∃ s, summary !! "script" = Some s
           ∧ count s = 2 ∧ totalSize s = 30
           ∧ num_eq (averageTime s) (int 200)
           ∧ dom summary = {["script"]}.
Proof.
  destruct (resource_summary_buckets two_scripts empty_metrics
              [script_entry "a.js" 100 10; script_entry "b.js" 300 20]
              eq_refl) as (_ & summary & Hs & _ & Hex).
  exists summary. split; [exact Hs|]. exact (Hex "a.js" "b.js" eq_refl).
Defined.

(** ** The FPS sampler *)

Section Sampler.

Variable duration : Q.
Variable t0 : Q.
Hypothesis t0_nonzero : ¬ (t0 == 0)%Q.

Lemma start_kept : start_unset (Some t0) = false.
Proof.
  unfold start_unset. destruct (Qeq_bool t0 0) eqn:E; [|reflexivity].
  apply Qeq_bool_eq in E. contradiction.
Qed.

(** A callback inside the window re-queues itself. *)
Lemma frame_inside (n : Z) (r : list number) (m : Metrics) (t : Q) :
  (t - t0 < duration)%Q →
  animation_frame duration
    ({| frames := n; startTime := Some t0; scheduled := true; resolved := r |}, m) t
  = ({| frames := n + 1; startTime := Some t0; scheduled := true;
        resolved := r |}, m).
Proof.
  intros Ht. unfold animation_frame, measureFrame.
  cbn [fst snd scheduled frames startTime resolved].
  rewrite start_kept. apply Qlt_bool_true in Ht. now rewrite Ht.
Qed.

(** A callback at or past the end of the window resolves the promise. *)
Lemma frame_closing (n : Z) (r : list number) (m : Metrics) (t : Q) :
  (duration <= t - t0)%Q →
  animation_frame duration
    ({| frames := n; startTime := Some t0; scheduled := true; resolved := r |}, m) t
  = let fps := Math_round (div (int ((n + 1) * 1000)) (Num duration)) in
    ({| frames := n + 1; startTime := Some t0; scheduled := false;
        resolved := r ++ [fps] |},
     {| resources := resources m; resourceSummary := resourceSummary m;
        fps := Some fps; audit := audit m |}).
Proof.
  intros Ht. unfold animation_frame, measureFrame.
  cbn [fst snd scheduled frames startTime resolved].
  rewrite start_kept. apply Qlt_bool_false in Ht. now rewrite Ht.
Qed.

Lemma frames_inside (inside : list Q) : ∀ (n : Z) (r : list number) (m : Metrics),
  Forall (fun t => (t - t0 < duration)%Q) inside →
  fold_left (animation_frame duration) inside
    ({| frames := n; startTime := Some t0; scheduled := true; resolved := r |}, m)
  = ({| frames := n + len inside; startTime := Some t0; scheduled := true;
        resolved := r |}, m).
Proof.
  induction inside as [|t inside IH]; intros n r m Hin; simpl.
  - unfold len. simpl. now rewrite Z.add_0_r.
  - inversion Hin as [|? ? Ht Hrest]; subst.
    rewrite frame_inside by exact Ht. rewrite IH by exact Hrest.
    replace (n + len (t :: inside)) with (n + 1 + len inside); [reflexivity|].
    unfold len. simpl length. lia.
Qed.

End Sampler.

(** Once nothing is queued, later animation frames change nothing. *)
Lemma frames_after_resolve (duration : Q) (after : list Q) (st : Sampler * Metrics) :
  scheduled (fst st) = false →
  fold_left (animation_frame duration) after st = st.
Proof.
  intros Hs. induction after as [|t after IH]; [reflexivity|].
  simpl. unfold animation_frame at 2. now rewrite Hs.
Qed.

(** The first callback fixes the start of the window when its timestamp
    is not 0. *)
Lemma first_frame (duration t0 : Q) (m : Metrics) :
  animation_frame duration
    ({| frames := 0; startTime := None; scheduled := true; resolved := [] |}, m) t0
  = if Qlt_bool (t0 - t0) duration then
      ({| frames := 1; startTime := Some t0; scheduled := true; resolved := [] |}, m)
    else
      let fps := Math_round (div (int 1000) (Num duration)) in
      ({| frames := 1; startTime := Some t0; scheduled := false;
          resolved := [fps] |},
       {| resources := resources m; resourceSummary := resourceSummary m;
          fps := Some fps; audit := audit m |}).
Proof. reflexivity. Qed.

Lemma sampler_pending (duration : Q) (inside : list Q) (t : Q) (m : Metrics) :
  let t0 := hd t inside in
  ¬ (t0 == 0)%Q →
  inside ≠ [] →
  Forall (fun x => (x - t0 < duration)%Q) inside →
  measureFPS duration inside m
  = ({| frames := len inside; startTime := Some t0; scheduled := true;
        resolved := [] |}, m).
Proof.
  cbv zeta. destruct inside as [|t0 inside]; [intros _ Hne; now contradiction Hne|].
  simpl hd. intros Hnz _ Hin. inversion Hin as [|? ? Ht Hrest]; subst.
  unfold measureFPS. simpl fold_left. rewrite first_frame.
  apply Qlt_bool_true in Ht. rewrite Ht.
  rewrite frames_inside by assumption.
  replace (1 + len inside) with (len (t0 :: inside)); [reflexivity|].
  unfold len. simpl length. lia.
Qed.

Lemma sampler_resolves (duration : Q) (inside : list Q) (t : Q)
    (after : list Q) (m : Metrics) :
  let t0 := hd t inside in
  let fps := Math_round (div (int ((len inside + 1) * 1000)) (Num duration)) in
  ¬ (t0 == 0)%Q →
  Forall (fun x => (x - t0 < duration)%Q) inside →
  (duration <= t - t0)%Q →
  measureFPS duration (inside ++ t :: after) m
  = ({| frames := len inside + 1; startTime := Some t0; scheduled := false;
        resolved := [fps] |}, set_fps m fps).
Proof.
  cbv zeta. intros Hnz Hin Ht. unfold measureFPS. rewrite fold_left_app.
  destruct inside as [|t0 inside].
  - simpl hd in *. simpl fold_left. rewrite first_frame.
    apply Qlt_bool_false in Ht. rewrite Ht. cbv zeta.
    now rewrite frames_after_resolve.
  - fold (measureFPS duration (t0 :: inside) m).
    rewrite (sampler_pending duration (t0 :: inside) t m Hnz) by (discriminate || assumption).
    simpl hd in *. simpl fold_left.
    rewrite frame_closing by assumption. cbv zeta.
    now rewrite frames_after_resolve.
Qed.

Lemma evenly_spaced_inside (t0 step bound : Q) (n : nat) :
  (0 < step)%Q →
  (inject_Z (Z.of_nat n) * step <= bound)%Q →
  Forall (fun x => (x - (t0 + inject_Z 0 * step) < bound)%Q)
    (evenly_spaced t0 step n).
Proof.
  intros Hstep Hn. apply List.Forall_forall. intros x Hx.
  apply in_map_iff in Hx as (k & <- & Hk). apply in_seq in Hk.
  assert (inject_Z (Z.of_nat k) + 1 <= inject_Z (Z.of_nat n))%Q as Hkn.
  { change 1%Q with (inject_Z 1). rewrite <- inject_Z_plus, <- Zle_Qle. lia. }
  assert (0 <= inject_Z (Z.of_nat k))%Q as Hk0.
  { change 0%Q with (inject_Z 0). rewrite <- Zle_Qle. lia. }
  assert (0 <= (inject_Z (Z.of_nat n) - inject_Z (Z.of_nat k) - 1) * step)%Q
    as Hprod by (apply Qmult_le_0_compat; lra).
  change (inject_Z 0) with 0%Q. nra.
Qed.

Lemma evenly_spaced_S (t0 step : Q) (n : nat) :
  evenly_spaced t0 step (S n)
  = evenly_spaced t0 step n ++ [(t0 + inject_Z (Z.of_nat n) * step)%Q].
Proof. unfold evenly_spaced. now rewrite seq_S, map_app. Qed.

Lemma evenly_spaced_hd (t0 step d : Q) (n : nat) :
  hd d (evenly_spaced t0 step (S n)) = (t0 + inject_Z 0 * step)%Q.
Proof. reflexivity. Qed.

Lemma first_timestamp_nonzero (t0 step : Q) :
  ¬ (t0 == 0)%Q → ¬ (t0 + inject_Z 0 * step == 0)%Q.
Proof. intros Hnz H. apply Hnz. rewrite <- H. change (inject_Z 0) with 0%Q. ring. Qed.

Lemma spaced_over_window (t0 : Q) (m : Metrics) :
  ¬ (t0 == 0)%Q →
  resolved (fst (measureFPS 1000 (evenly_spaced t0 (1000 # 59) 60) m)) = [int 60].
Proof.
  intros Hnz. rewrite evenly_spaced_S.
  pose proof (sampler_resolves 1000 (evenly_spaced t0 (1000 # 59) 59)
                (t0 + inject_Z (Z.of_nat 59) * (1000 # 59))%Q [] m) as H.
  cbv zeta in H. rewrite evenly_spaced_hd in H. rewrite H; [reflexivity | | |].
  - now apply first_timestamp_nonzero.
  - apply evenly_spaced_inside; [reflexivity|]. vm_compute. discriminate.
  - change (inject_Z (Z.of_nat 59)) with 59%Q. change (inject_Z 0) with 0%Q. lra.
Qed.

Lemma steady_60hz (t0 : Q) (m : Metrics) :
  ¬ (t0 == 0)%Q →
  resolved (fst (measureFPS 1000 (evenly_spaced t0 (1000 # 60) 60) m)) = []
  ∧ resolved (fst (measureFPS 1000 (evenly_spaced t0 (1000 # 60) 61) m)) = [int 61].
Proof.
  intros Hnz.
  assert (Forall (fun x => (x - (t0 + inject_Z 0 * (1000 # 60)) < 1000)%Q)
            (evenly_spaced t0 (1000 # 60) 60)) as Hin.
  { apply evenly_spaced_inside; [reflexivity|]. vm_compute. discriminate. }
  split.
  - pose proof (sampler_pending 1000 (evenly_spaced t0 (1000 # 60) 60) 0%Q m) as H.
    cbv zeta in H. rewrite evenly_spaced_hd in H. rewrite H; [reflexivity | | |].
    + now apply first_timestamp_nonzero.
    + discriminate.
    + exact Hin.
  - rewrite evenly_spaced_S.
    pose proof (sampler_resolves 1000 (evenly_spaced t0 (1000 # 60) 60)
                  (t0 + inject_Z (Z.of_nat 60) * (1000 # 60))%Q [] m) as H.
    cbv zeta in H. rewrite evenly_spaced_hd in H. rewrite H; [reflexivity | | |].
    + now apply first_timestamp_nonzero.
    + exact Hin.
    + change (inject_Z (Z.of_nat 60)) with 60%Q. change (inject_Z 0) with 0%Q. lra.
Qed.

(** C8, as amended. When the first callback's timestamp is not 0, the
    window starts at that timestamp; every callback less than [duration]
    after it is counted and re-queues the sampler; the first callback at
    or past the end of the window is counted too and resolves the promise
    with [round(frames * 1000 / duration)], which is also stored in the
    metrics; no later animation frame reaches the sampler, so the promise
    is resolved exactly once.  Sixty callbacks evenly spaced from the
    start of a 1000 ms window to its end give 60; a steady source with
    1000/60 ms between callbacks is still pending after sixty callbacks
    and gives 61 at the next one. *)
Theorem fps_sampler :
  (∀ (duration : Q) (inside : list Q) (t : Q) (after : list Q) (m : Metrics),
     let t0 := hd t inside in
     let frames_counted := len inside + 1 in
     let fps := Math_round (div (int (frames_counted * 1000)) (Num duration)) in
     ¬ (t0 == 0)%Q →
     Forall (fun x => (x - t0 < duration)%Q) inside →
     (duration <= t - t0)%Q →
     (inside ≠ [] →
      measureFPS duration inside m
      = ({| frames := len inside; startTime := Some t0; scheduled := true;
            resolved := [] |}, m))
     ∧ measureFPS duration (inside ++ t :: after) m
       = ({| frames := frames_counted; startTime := Some t0; scheduled := false;
             resolved := [fps] |}, set_fps m fps))
  ∧ (∀ (t0 : Q) (m : Metrics),
       ¬ (t0 == 0)%Q →
       resolved (fst (measureFPS 1000 (evenly_spaced t0 (1000 # 59) 60) m))
       = [int 60]
       ∧ resolved (fst (measureFPS 1000 (evenly_spaced t0 (1000 # 60) 60) m)) = []
       ∧ resolved (fst (measureFPS 1000 (evenly_spaced t0 (1000 # 60) 61) m))
         = [int 61]).
Proof.
  split.
  - intros duration inside t after m t0 frames_counted fps Hnz Hin Ht. split.
    + intros Hne. now apply sampler_pending.
    + now apply sampler_resolves.
  - intros t0 m Hnz. split; [now apply spaced_over_window|].
    now apply steady_60hz.
Qed.

Lemma fps_sampler_witness :
  measureFPS 1000 [100; 600; 1200; 1300]%Q empty_metrics
  = ({| frames := 3; startTime := Some 100%Q; scheduled := false;
        resolved := [int 3] |}, set_fps empty_metrics (int 3))
  ∧ resolved (fst (measureFPS 1000 (evenly_spaced 16 (1000 # 59) 60) empty_metrics))
    = [int 60].
Proof.
  destruct fps_sampler as [H1 H2]. split.
  - apply (H1 1000%Q [100; 600]%Q 1200%Q [1300]%Q empty_metrics).
    + discriminate.
    + repeat constructor.
    + discriminate.
  - apply (H2 16%Q empty_metrics). discriminate.
Defined.

(** C8 as stated fails.  With callbacks at 100, 600 and 1200 ms and a
    1000 ms window, two callbacks fall within the window but the sampler
    returns 3.  With callbacks at 0, 600 and 1200 ms the third one is past
    the end of the window that starts at the first, yet the sampler has
    not resolved: it restarted the window at 600. *)
Lemma fps_sampler_counterexample :
  (resolved (fst (measureFPS 1000 [100; 600; 1200]%Q empty_metrics)) = [int 3]
   ∧ claimed_fps 1000 [100; 600; 1200]%Q = [int 2])
  ∧ (fst (measureFPS 1000 [0; 600; 1200]%Q empty_metrics)
     = {| frames := 3; startTime := Some 600%Q; scheduled := true;
          resolved := [] |}
     ∧ claimed_fps 1000 [0; 600; 1200]%Q = [int 2]).
Proof. repeat split. Qed.

(* ===================================================================== *)
(** * Further properties of the pipeline *)
(* ===================================================================== *)

(** ** Bounds on the aggregated scores *)

Lemma Qsum_bounds (lo hi : Q) (l : list Q) :
  Forall (fun q => (lo <= q)%Q ∧ (q <= hi)%Q) l →
  (inject_Z (len l) * lo <= Qsum l)%Q ∧ (Qsum l <= inject_Z (len l) * hi)%Q.
Proof.
  induction 1 as [|q l [Hlo Hhi] _ [IHlo IHhi]].
  - unfold len, Qsum. simpl. change (inject_Z (Z.of_nat 0)) with 0%Q. split; lra.
  - replace (len (q :: l)) with (len l + 1) by (unfold len; simpl length; lia).
    rewrite inject_Z_plus. change (inject_Z 1) with 1%Q. simpl Qsum.
    split; lra.
Qed.

Lemma mean_bounds (lo hi : Q) (l : list Q) :
  l ≠ [] →
  Forall (fun q => (lo <= q)%Q ∧ (q <= hi)%Q) l →
  (lo <= mean l)%Q ∧ (mean l <= hi)%Q.
Proof.
  intros Hne Hl. destruct (Qsum_bounds lo hi l Hl) as [Hlo Hhi].
  assert (0 < inject_Z (len l))%Q as Hn.
  { change 0%Q with (inject_Z 0). rewrite <- Zlt_Qlt. unfold len.
    destruct l; [contradiction | simpl length; lia]. }
  unfold mean. split.
  - apply Qle_shift_div_l; [exact Hn|]. now rewrite Qmult_comm.
  - apply Qle_shift_div_r; [exact Hn|]. now rewrite Qmult_comm.
Qed.

Lemma round_half_up_between (q : Q) (z a b : Z) :
  round_half_up q z →
  (inject_Z a <= q)%Q → (q <= inject_Z b)%Q →
  a ≤ z ≤ b.
Proof.
  intros [Hl Hu] Ha Hb.
  assert (inject_Z a < inject_Z z + 1)%Q as H1 by lra.
  assert (inject_Z z < inject_Z b + 1)%Q as H2 by lra.
  change 1%Q with (inject_Z 1) in H1, H2.
  rewrite <- inject_Z_plus, <- Zlt_Qlt in H1, H2. lia.
Qed.

Lemma score_within_contribution (r : AuditResult) :
  score_within r →
  finite_or_absent r ∧ (0 <= contribution r)%Q ∧ (contribution r <= 100)%Q.
Proof.
  unfold score_within, finite_or_absent, contribution.
  destruct (score r) as [[q| | |]|]; try contradiction.
  - intros [H0 H1]. auto.
  - intros _. split; [exact I|]. split; [apply Qle_refl | discriminate].
Qed.

Lemma has_score_within (r : AuditResult) : has_score r → score_within r.
Proof.
  intros (s & Hs & z & Hz & Heq). unfold score_within. rewrite Hs.
  destruct s as [q| | |]; simpl in Heq; try contradiction.
  rewrite Heq. change 0%Q with (inject_Z 0). change 100%Q with (inject_Z 100).
  rewrite <- !Zle_Qle. lia.
Qed.

(** X1. A category with at least one check, whose scores are each absent
    or between 0 and 100, has a category score that is an integer between
    0 and 100. *)
Theorem category_score_in_range (cat : AuditCategory) :
  cat ≠ [] →
  Forall score_within (Object_values cat) →
  ∃ z : Z, calculateCategoryScore cat = int z ∧ 0 ≤ z ≤ 100.
Proof.
  intros Hne Hw.
  assert (Forall finite_or_absent (Object_values cat)) as Hf.
  { eapply List.Forall_impl; [|exact Hw]. intros r Hr.
    now apply score_within_contribution. }
  destruct (category_score_rounds cat Hne Hf) as (z & Hz & Hr).
  exists z. split; [exact Hz|].
  assert (map contribution (Object_values cat) ≠ []) as Hne'.
  { destruct cat; [contradiction | discriminate]. }
  destruct (mean_bounds 0 100 (map contribution (Object_values cat)) Hne')
    as [H0 H100].
  { apply List.Forall_map. eapply List.Forall_impl; [|exact Hw]. intros r Hw'.
    now apply score_within_contribution. }
  apply (round_half_up_between _ z 0 100 Hr); assumption.
Qed.

Lemma category_score_in_range_witness :
  ∃ z : Z,
    calculateCategoryScore
      [("a", result_of (Some (int 100))); ("b", result_of None)] = int z
    ∧ 0 ≤ z ≤ 100.
Proof.
  apply (category_score_in_range
           [("a", result_of (Some (int 100))); ("b", result_of None)]).
  - discriminate.
  - repeat apply List.Forall_cons; try apply List.Forall_nil.
    + split; discriminate.
    + exact I.
Defined.

Lemma runAudit_scores_within (w : Window) (m : Metrics) :
  let a := snd (runAudit w m) in
  Forall (fun cat : AuditCategory =>
            cat ≠ [] ∧ Forall score_within (Object_values cat))
    [performance a; accessibility a; bestPractices a; seo a].
Proof.
  assert (Forall score_within (all_checks w)) as Hs.
  { unfold all_checks.
    repeat apply List.Forall_cons; try apply List.Forall_nil;
      apply has_score_within; auto with check_scores. }
  unfold all_checks in Hs.
  repeat match goal with
         | H : Forall _ (_ :: _) |- _ =>
             apply Forall_cons in H; destruct H as [? H]
         end.
  cbn.
  repeat apply List.Forall_cons; try apply List.Forall_nil;
    (split; [discriminate |
             repeat apply List.Forall_cons; try apply List.Forall_nil;
             assumption]).
Qed.

Lemma four_mean_between (zp za zb zs lo hi : Z) :
  lo ≤ zp ≤ hi → lo ≤ za ≤ hi → lo ≤ zb ≤ hi → lo ≤ zs ≤ hi →
  (inject_Z lo <= mean [inject_Z zp; inject_Z za; inject_Z zb; inject_Z zs])%Q
  ∧ (mean [inject_Z zp; inject_Z za; inject_Z zb; inject_Z zs] <= inject_Z hi)%Q.
Proof.
  intros Hp Ha Hb Hs. apply mean_bounds; [discriminate|].
  repeat apply List.Forall_cons; try apply List.Forall_nil;
    rewrite <- !Zle_Qle; lia.
Qed.

(** X2. After an audit of any page, the four category scores and the
    overall score that [calculateScores] returns are integers between 0
    and 100. *)
Theorem audited_scores_in_range (w : Window) (m : Metrics) :
  Forall (fun s => ∃ z : Z, s = int z ∧ 0 ≤ z ≤ 100)
    (score_list (calculateScores (fst (runAudit w m)))).
Proof.
  pose proof (runAudit_scores_within w m) as Hw. cbv zeta in Hw.
  destruct (overall_two_stage (fst (runAudit w m)) (snd (runAudit w m))
              (runAudit_stores w m) (runAudit_well_formed w m))
    as (zp & za & zb & zs & z & [Hp _] & [Ha _] & [Hb _] & [Hs _] & Ho & Hr).
  repeat match goal with
         | H : Forall _ (_ :: _) |- _ =>
             apply Forall_cons in H; destruct H as [[? ?] H]
         end.
  destruct (category_score_in_range (performance (snd (runAudit w m))))
    as (zp' & Ep & Rp); try assumption.
  destruct (category_score_in_range (accessibility (snd (runAudit w m))))
    as (za' & Ea & Ra); try assumption.
  destruct (category_score_in_range (bestPractices (snd (runAudit w m))))
    as (zb' & Eb & Rb); try assumption.
  destruct (category_score_in_range (seo (snd (runAudit w m))))
    as (zs' & Es & Rs); try assumption.
  assert (zp' = zp) as -> by (rewrite Hp in Ep; inversion Ep; reflexivity).
  assert (za' = za) as -> by (rewrite Ha in Ea; inversion Ea; reflexivity).
  assert (zb' = zb) as -> by (rewrite Hb in Eb; inversion Eb; reflexivity).
  assert (zs' = zs) as -> by (rewrite Hs in Es; inversion Es; reflexivity).
  destruct (four_mean_between zp za zb zs 0 100) as [Hlo Hhi]; try assumption.
  pose proof (round_half_up_between _ z 0 100 Hr Hlo Hhi) as Rz.
  unfold score_list, calculateScores in *. rewrite runAudit_stores in *.
  cbv zeta in *.
  cbn [ScoreSet.performance ScoreSet.accessibility ScoreSet.bestPractices
       ScoreSet.seo ScoreSet.overall] in *.
  repeat apply List.Forall_cons; try apply List.Forall_nil; eauto.
Qed.

(** X3. Whenever an audit with non-empty categories and numeric or absent
    scores is stored, the overall score lies between the smallest and the
    largest of the four category scores. *)
Theorem overall_between_categories (m : Metrics) (a : Audit) :
  audit m = Some a →
  well_formed a →
  ∃ zp za zb zs z : Z,
    ScoreSet.performance (calculateScores m) = int zp
    ∧ ScoreSet.accessibility (calculateScores m) = int za
    ∧ ScoreSet.bestPractices (calculateScores m) = int zb
    ∧ ScoreSet.seo (calculateScores m) = int zs
    ∧ ScoreSet.overall (calculateScores m) = int z
    ∧ Z.min (Z.min zp za) (Z.min zb zs) ≤ z ≤ Z.max (Z.max zp za) (Z.max zb zs).
Proof.
  intros Ha Hwf.
  destruct (overall_two_stage m a Ha Hwf)
    as (zp & za & zb & zs & z & [Hp _] & [Hac _] & [Hb _] & [Hs _] & Ho & Hr).
  exists zp, za, zb, zs, z.
  destruct (four_mean_between zp za zb zs
              (Z.min (Z.min zp za) (Z.min zb zs))
              (Z.max (Z.max zp za) (Z.max zb zs))) as [Hlo Hhi]; try lia.
  pose proof (round_half_up_between _ z _ _ Hr Hlo Hhi) as Rz.
  unfold calculateScores in *. rewrite Ha in *. cbv zeta in *.
  cbn [ScoreSet.performance ScoreSet.accessibility ScoreSet.bestPractices
       ScoreSet.seo ScoreSet.overall] in *.
  auto 10.
Qed.

Lemma overall_between_categories_witness :
  ∃ zp za zb zs z : Z,
    let s := calculateScores (fst (runAudit lone_h2 empty_metrics)) in
    ScoreSet.performance s = int zp
    ∧ ScoreSet.accessibility s = int za
    ∧ ScoreSet.bestPractices s = int zb
    ∧ ScoreSet.seo s = int zs
    ∧ ScoreSet.overall s = int z
    ∧ Z.min (Z.min zp za) (Z.min zb zs) ≤ z ≤ Z.max (Z.max zp za) (Z.max zb zs).
Proof.
  apply (overall_between_categories (fst (runAudit lone_h2 empty_metrics))
           (snd (runAudit lone_h2 empty_metrics))).
  - reflexivity.
  - unfold well_formed. cbn.
    repeat apply List.Forall_cons; try apply List.Forall_nil;
      (split; [discriminate |
               repeat apply List.Forall_cons; try apply List.Forall_nil;
               exact I]).
Defined.

(** ** What the stub checks do to the category scores *)

Lemma querySelector_exists (doc : Document) (s : selector) :
  bool_decide (is_Some (querySelector doc s)) = existsb (matches s) doc.
Proof.
  unfold querySelector, querySelectorAll.
  induction doc as [|e doc IH]; [reflexivity|]. simpl.
  destruct (matches s e); [reflexivity | exact IH].
Qed.

Lemma querySelector_tag (doc : Document) (t : string) :
  bool_decide (is_Some (querySelector doc [tag t])) = has_tag doc t.
Proof.
  rewrite querySelector_exists. unfold has_tag.
  induction doc as [|e doc IH]; [reflexivity|]. cbn [existsb]. rewrite IH.
  f_equal. unfold matches, matches_compound. cbn [existsb tag sel_tag sel_attr].
  now rewrite andb_true_r, orb_false_r.
Qed.

Lemma len_filter_zero {A} (f : A → bool) (l : list A) :
  (len (List.filter f l) =? 0) = negb (existsb f l).
Proof.
  induction l as [|x l IH]; [reflexivity|]. simpl.
  destruct (f x); [|exact IH]. unfold len. simpl length.
  apply Z.eqb_neq. lia.
Qed.

Lemma checkDeprecatedAPI_unfold (w : Window) :
  checkDeprecatedAPI w =
  {| score := Some (if is_clean w then int 100 else int 0);
     detail := deprecated (List.filter (has_tag (document w)) deprecated_tags) |}.
Proof.
  unfold checkDeprecatedAPI. cbv zeta.
  rewrite (List.filter_ext _ (has_tag (document w)))
    by (intros t; apply querySelector_tag).
  now rewrite len_filter_zero.
Qed.

(** X4. The best-practices score of an audited page takes one of three
    values: 100 when the page is served over https and has none of the
    deprecated elements applet, marquee, frameset, frame; 67 when exactly
    one of the two holds; 33 when neither does.  It is never lower,
    because the console-errors check always scores 100. *)
Theorem best_practices_values (w : Window) (m : Metrics) :
  ScoreSet.bestPractices (calculateScores (fst (runAudit w m)))
  = int (match is_secure w, is_clean w with
         | true, true => 100
         | false, false => 33
         | _, _ => 67
         end).
Proof.
  unfold calculateScores. rewrite runAudit_stores. cbv zeta.
  cbn [ScoreSet.bestPractices].
  change (bestPractices (snd (runAudit w m)))
    with [("https", checkHTTPS w); ("consoleErrors", checkConsoleErrors);
          ("deprecatedAPI", checkDeprecatedAPI w)].
  rewrite checkDeprecatedAPI_unfold. unfold checkHTTPS. fold (is_secure w).
  destruct (is_secure w), (is_clean w); vm_compute; reflexivity.
Qed.

(** X5. The accessibility score of an audited page is an integer between
    28 and 95: the colour-contrast check is a constant 85, so the mean of
    the three checks cannot leave that range whatever the page holds. *)
Theorem accessibility_range (w : Window) (m : Metrics) :
  ∃ z : Z,
    ScoreSet.accessibility (calculateScores (fst (runAudit w m))) = int z
    ∧ 28 ≤ z ≤ 95.
Proof.
  unfold calculateScores. rewrite runAudit_stores. cbv zeta.
  cbn [ScoreSet.accessibility].
  change (accessibility (snd (runAudit w m)))
    with [("altTags", checkAltTags w); ("ariaLabels", checkAriaLabels w);
          ("colorContrast", checkColorContrast)].
  pose proof (has_score_within _ (checkAltTags_score w)) as Halt.
  pose proof (has_score_within _ (checkAriaLabels_score w)) as Haria.
  apply score_within_contribution in Halt as (Fa & A0 & A1).
  apply score_within_contribution in Haria as (Fr & R0 & R1).
  destruct (category_score_rounds
              [("altTags", checkAltTags w); ("ariaLabels", checkAriaLabels w);
               ("colorContrast", checkColorContrast)]) as (z & -> & Hr).
  { discriminate. }
  { repeat apply List.Forall_cons; try apply List.Forall_nil;
      (assumption || exact I). }
  exists z. split; [reflexivity|].
  apply (round_half_up_between _ z 28 95 Hr);
    unfold mean, Qsum, len, Object_values; cbn [map snd fold_right length];
    change (contribution checkColorContrast) with 85%Q;
    change (inject_Z (Z.of_nat 3)) with 3%Q;
    [apply Qle_shift_div_l | apply Qle_shift_div_r]; try reflexivity;
    change (inject_Z 28) with 28%Q; change (inject_Z 95) with 95%Q; lra.
Qed.

(** ** When each recommendation is issued, in terms of the page *)

Lemma lt_int (a b : Z) : lt (int a) (int b) = (a <? b).
Proof.
  unfold lt, int. destruct (a <? b) eqn:E.
  - apply Qlt_bool_true. rewrite <- Zlt_Qlt. lia.
  - apply Qlt_bool_false. rewrite <- Zle_Qle. lia.
Qed.

Lemma lt_num_eq (a a' b : number) : num_eq a a' → lt a b = lt a' b.
Proof.
  destruct a, a'; simpl; try contradiction; try reflexivity.
  intros Hq. destruct b; try reflexivity. unfold Qlt_bool. now rewrite Hq.
Qed.

Lemma Qfloor_lt (x : Q) (k : Z) : Qfloor x < k ↔ (x < inject_Z k)%Q.
Proof.
  split.
  - intros H. apply Qlt_le_trans with (inject_Z (Qfloor x + 1)).
    + apply Qlt_floor.
    + rewrite <- Zle_Qle. lia.
  - intros H. rewrite Zlt_Qlt. eapply Qle_lt_trans; [apply Qfloor_le | exact H].
Qed.

Lemma page_recommendations_eq (w : Window) (m : Metrics) :
  page_recommendations w m
  = Some (expected_recommendations (checkImageOptimization w) (checkCSSSize w)
            (checkAltTags w) (checkMetaTags w)).
Proof.
  unfold page_recommendations.
  now apply (recommendations_of_audit _ (snd (runAudit w m))).
Qed.

Lemma advisory_issued (io css alt_ meta : AuditResult) :
  let recs := expected_recommendations io css alt_ meta in
  (In rec_images recs ↔ opt_lt (score io) (int 80) = true)
  ∧ (In rec_css recs ↔ opt_lt (score css) (int 80) = true)
  ∧ (In rec_alt recs ↔ opt_lt (score alt_) (int 100) = true)
  ∧ (In rec_meta recs ↔ opt_lt (score meta) (int 100) = true).
Proof.
  cbv zeta. unfold expected_recommendations, advisories.
  destruct (opt_lt (score io) _), (opt_lt (score css) _),
    (opt_lt (score alt_) _), (opt_lt (score meta) _);
    cbn [List.filter map fst snd In];
    unfold rec_images, rec_css, rec_alt, rec_meta;
    repeat split; intros H; try reflexivity; try discriminate;
    repeat (destruct H as [H|H]; try discriminate); try contradiction; auto.
Qed.

Lemma image_score_low (w : Window) :
  opt_lt (score (checkImageOptimization w)) (int 80)
  = (2 <=? len (List.filter oversized (page_images w))).
Proof.
  unfold checkImageOptimization. cbv zeta. fold img_selector.
  fold (page_images w). fold oversized.
  pose proof (len_filter_le oversized (page_images w)) as Hl.
  set (k := len (List.filter oversized (page_images w))) in *.
  cbn [score opt_lt]. destruct (k =? 0)%Z eqn:E.
  - apply Z.eqb_eq in E. rewrite E. reflexivity.
  - apply Z.eqb_neq in E. rewrite penalty_eq.
    rewrite (lt_num_eq _ _ _ (Math_max_0_eq _ _ (penalty_int k 20))).
    rewrite lt_int.
    destruct (2 <=? k) eqn:E2; [apply Z.ltb_lt | apply Z.ltb_ge]; lia.
Qed.

Lemma css_score_low (w : Window) :
  opt_lt (score (checkCSSSize w)) (int 80)
  = (7 <=? len (List.filter css_counted (stylesheet_links w))).
Proof.
  rewrite checkCSSSize_unfold. cbv zeta.
  pose proof (len_filter_le css_counted (stylesheet_links w)) as Hl.
  set (n := len (List.filter css_counted (stylesheet_links w))) in *.
  cbn [score opt_lt]. destruct (5000 * n <? 10000) eqn:E.
  - apply Z.ltb_lt in E. rewrite lt_int.
    destruct (7 <=? n) eqn:E2; [apply Z.leb_le in E2; lia | reflexivity].
  - apply Z.ltb_ge in E. rewrite div_int_nonzero by lia.
    change (sub (int 100) (Num ?x)) with (Num (inject_Z 100 + - x)).
    replace (5000 * n - 10000) with ((5 * n) * 1000 - 10 * 1000) by lia.
    rewrite (lt_num_eq _ _ _ (Math_max_0_eq _ _ (budget_int (5 * n) 10))).
    rewrite lt_int.
    destruct (7 <=? n) eqn:E2; [apply Z.ltb_lt | apply Z.ltb_ge]; lia.
Qed.

Lemma coverage_below_100 (k n : Z) :
  0 ≤ k → 0 < n →
  lt (Math_round (mul (sub (int 1) (div (int k) (int n))) (int 100))) (int 100)
  = (n <? 200 * k).
Proof.
  intros Hk Hn. rewrite div_int_nonzero by lia.
  change (Math_round (mul (sub (int 1) (Num ?x)) (int 100)))
    with (int (Qfloor ((inject_Z 1 + - x) * inject_Z 100 + (1 # 2)))).
  rewrite lt_int.
  assert (0 < inject_Z n)%Q as Hn'
    by (change 0%Q with (inject_Z 0); now rewrite <- Zlt_Qlt).
  set (r := (inject_Z k / inject_Z n)%Q).
  assert (r * inject_Z n == inject_Z k)%Q as Hr
    by (unfold r; field; intros H0; rewrite H0 in Hn'; discriminate).
  change (inject_Z 1) with 1%Q. change (inject_Z 100) with 100%Q.
  destruct (n <? 200 * k) eqn:E.
  - apply Z.ltb_lt in E. apply Z.ltb_lt, Qfloor_lt.
    assert (inject_Z n < 200 * inject_Z k)%Q as E'.
    { change 200%Q with (inject_Z 200).
      rewrite <- inject_Z_mult, <- Zlt_Qlt. lia. }
    change (inject_Z 100) with 100%Q. nra.
  - apply Z.ltb_ge in E. apply Z.ltb_ge.
    assert (200 * inject_Z k <= inject_Z n)%Q as E'.
    { change 200%Q with (inject_Z 200).
      rewrite <- inject_Z_mult, <- Zle_Qle. lia. }
    assert (~ Qfloor ((1 + - r) * 100 + (1 # 2)) < 100) as Hnot.
    { rewrite Qfloor_lt. change (inject_Z 100) with 100%Q. intros Hlt. nra. }
    lia.
Qed.

Lemma alt_score_low (w : Window) :
  opt_lt (score (checkAltTags w)) (int 100)
  = (len (page_images w) <? 200 * len (List.filter lacks_alt (page_images w))).
Proof.
  unfold checkAltTags. cbv zeta. fold img_selector. fold (page_images w).
  fold lacks_alt.
  pose proof (len_filter_le lacks_alt (page_images w)) as Hl.
  cbn [score opt_lt]. destruct (len (page_images w) =? 0)%Z eqn:E.
  - apply Z.eqb_eq in E. rewrite lt_int. symmetry. apply Z.ltb_ge. lia.
  - apply Z.eqb_neq in E. apply coverage_below_100; lia.
Qed.

Lemma querySelector_meta (doc : Document) (name : string) :
  bool_decide
    (is_Some (querySelector doc [tag_with "meta" (AttrEq "name" name)]))
  = has_meta doc name.
Proof.
  rewrite querySelector_exists. unfold has_meta.
  induction doc as [|e doc IH]; [reflexivity|]. cbn [existsb]. rewrite IH.
  f_equal. unfold matches, matches_compound.
  cbn [existsb tag_with sel_tag sel_attr attr_holds].
  now rewrite orb_false_r.
Qed.

Lemma meta_score_low (w : Window) :
  opt_lt (score (checkMetaTags w)) (int 100)
  = negb (has_meta (document w) "description"
          && has_meta (document w) "viewport").
Proof.
  unfold checkMetaTags. cbv zeta. cbn [List.filter].
  rewrite !querySelector_meta.
  destruct (has_meta (document w) "description"),
    (has_meta (document w) "viewport"); vm_compute; reflexivity.
Qed.

(** X6. After an audit, the advice to resize images is issued exactly
    when the page has at least two images whose natural width is more than
    twice their rendered width; a single oversized image scores 80, which
    is not below the threshold. *)
Theorem image_recommendation (w : Window) (m : Metrics) :
  ∃ recs, page_recommendations w m = Some recs
          ∧ (In rec_images recs
             ↔ 2 ≤ len (List.filter oversized (page_images w))).
Proof.
  eexists. split; [apply page_recommendations_eq|].
  destruct (advisory_issued (checkImageOptimization w) (checkCSSSize w)
              (checkAltTags w) (checkMetaTags w)) as (-> & _).
  rewrite image_score_low. apply Z.leb_le.
Qed.

(** X7. After an audit, the advice to minify CSS is issued exactly when
    the page has at least seven stylesheet links that have an href outside
    Google Fonts. *)
Theorem css_recommendation (w : Window) (m : Metrics) :
  ∃ recs, page_recommendations w m = Some recs
          ∧ (In rec_css recs
             ↔ 7 ≤ len (List.filter (fun sheet => negb (css_exempt sheet))
                          (stylesheet_links w))).
Proof.
  eexists. split; [apply page_recommendations_eq|].
  destruct (advisory_issued (checkImageOptimization w) (checkCSSSize w)
              (checkAltTags w) (checkMetaTags w)) as (_ & -> & _).
  rewrite css_score_low.
  rewrite (List.filter_ext (fun sheet => negb (css_exempt sheet)) css_counted)
    by (intros sheet; now rewrite css_counted_exempt).
  apply Z.leb_le.
Qed.

(** X8. After an audit, the advice to add alt text is issued exactly when
    more than one image in 200 lacks alt text.  With one such image among
    201 the coverage rounds to 100 and no advice is given. *)
Theorem alt_recommendation (w : Window) (m : Metrics) :
  ∃ recs, page_recommendations w m = Some recs
          ∧ (In rec_alt recs
             ↔ len (page_images w)
               < 200 * len (List.filter lacks_alt (page_images w))).
Proof.
  eexists. split; [apply page_recommendations_eq|].
  destruct (advisory_issued (checkImageOptimization w) (checkCSSSize w)
              (checkAltTags w) (checkMetaTags w)) as (_ & _ & -> & _).
  rewrite alt_score_low. apply Z.ltb_lt.
Qed.

(** X9. After an audit, the advice to add meta tags is issued exactly
    when the page lacks a meta element named description or one named
    viewport. *)
Theorem meta_recommendation (w : Window) (m : Metrics) :
  ∃ recs, page_recommendations w m = Some recs
          ∧ (In rec_meta recs
             ↔ has_meta (document w) "description" = false
               ∨ has_meta (document w) "viewport" = false).
Proof.
  eexists. split; [apply page_recommendations_eq|].
  destruct (advisory_issued (checkImageOptimization w) (checkCSSSize w)
              (checkAltTags w) (checkMetaTags w)) as (_ & _ & _ & ->).
  rewrite meta_score_low.
  destruct (has_meta (document w) "description"),
    (has_meta (document w) "viewport"); simpl; intuition discriminate.
Qed.

(** ** The remaining checks, in terms of the page *)

(** X10. The JS-size check charges 10000 bytes per script element with a
    src attribute: with [n] such scripts the reported size is [10000 n]
    and the score is 100 for [n <= 3] and [max(0, 130 - 10 n)] beyond, so
    it reaches 0 at thirteen scripts. *)
Theorem js_size_score (w : Window) :
  let n := len (external_scripts w) in
  detail (checkJSSize w) = size (10000 * n)
  ∧ ∃ s, score (checkJSSize w) = Some s
         ∧ num_eq s (int (if n <=? 3 then 100 else Z.max 0 (130 - 10 * n))).
Proof.
  cbv zeta. unfold checkJSSize. cbv zeta. fold (external_scripts w).
  set (n := len (external_scripts w)).
  assert (0 ≤ n) as Hn by (unfold n, len; lia).
  cbn [detail score]. split; [f_equal; lia|].
  eexists. split; [reflexivity|].
  destruct (n * 10000 <? 30000) eqn:E.
  - apply Z.ltb_lt in E. rewrite (proj2 (Z.leb_le n 3)) by lia.
    apply num_eq_refl.
  - apply Z.ltb_ge in E. rewrite div_int_nonzero by lia.
    change (sub (int 100) (Num ?x)) with (Num (inject_Z 100 + - x)).
    replace (n * 10000 - 30000) with ((10 * n) * 1000 - 30 * 1000) by lia.
    pose proof (Math_max_0_eq _ _ (budget_int (10 * n) 30)) as Hm.
    destruct (n <=? 3) eqn:E3.
    + apply Z.leb_le in E3. replace n with 3 in * by lia. exact Hm.
    + replace (130 - 10 * n) with (100 - (10 * n - 30)) by lia. exact Hm.
Qed.

(** X11. The meta-tags check scores 50 for each of the two required meta
    elements (description, viewport) that the page has, and its missing
    list holds exactly the required names the page has no meta element
    for, in that order. *)
Theorem meta_tags_result (w : Window) :
  let d := has_meta (document w) "description" in
  let v := has_meta (document w) "viewport" in
  checkMetaTags w =
  {| score := Some (int (50 * (Z.b2z d + Z.b2z v)));
     detail := missing
       (List.filter (fun name => negb (has_meta (document w) name))
          required_meta) |}.
Proof.
  cbv zeta. unfold checkMetaTags, required_meta. cbv zeta. cbn [List.filter].
  rewrite !querySelector_meta.
  destruct (has_meta (document w) "description"),
    (has_meta (document w) "viewport"); vm_compute; reflexivity.
Qed.

(** X12. The semantic-HTML check lists as missing exactly the landmark
    tags (header, nav, main, section, article, aside, footer) that no
    element of the page has; its score is 100 exactly when nothing is
    missing and 0 exactly when all seven are. *)
Theorem semantic_html_result (w : Window) :
  let absent :=
    List.filter (fun t => negb (has_tag (document w) t)) semantic_tags in
  detail (checkSemanticHTML w) = missing absent
  ∧ ∃ z, score (checkSemanticHTML w) = Some (int z)
         ∧ (z = 100 ↔ absent = [])
         ∧ (z = 0 ↔ absent = semantic_tags).
Proof.
  cbv zeta. unfold checkSemanticHTML, semantic_tags. cbv zeta.
  cbn [detail score List.filter].
  rewrite !querySelector_tag.
  destruct (has_tag (document w) "header"), (has_tag (document w) "nav"),
    (has_tag (document w) "main"), (has_tag (document w) "section"),
    (has_tag (document w) "article"), (has_tag (document w) "aside"),
    (has_tag (document w) "footer");
    (split; [vm_compute; reflexivity|]);
    eexists; (split; [vm_compute; reflexivity|]);
    cbn [negb]; split; split; intros H; (discriminate || lia || reflexivity).
Qed.

(** ** Resource grouping loses nothing *)

Section BucketTotals.

Variable weight : Summary → Z.

Let total (summary : gmap string Summary) : Z :=
  map_fold (fun _ s acc => weight s + acc) 0 summary.

Lemma total_insert (k : string) (s : Summary) (acc : gmap string Summary) :
  acc !! k = None → total (<[k := s]> acc) = weight s + total acc.
Proof.
  intros Hk. unfold total. rewrite map_fold_insert_L; [reflexivity | | exact Hk].
  intros. lia.
Qed.

Lemma total_delete (k : string) (s : Summary) (acc : gmap string Summary) :
  acc !! k = Some s → total acc = weight s + total (delete k acc).
Proof.
  intros Hk. unfold total. rewrite (map_fold_delete_L _ _ k s acc); [reflexivity | | exact Hk].
  intros. lia.
Qed.

Variable resource : ResourceEntry.
Variable gain : Z.
Hypothesis weight_step : ∀ s : Summary,
  weight {| count := count s + 1;
            totalSize := totalSize s + rsize resource;
            averageTime := averageTime s;
            items := items s ++ [resource] |} = weight s + gain.
Hypothesis weight_empty :
  weight {| count := 0; totalSize := 0; averageTime := int 0; items := [] |} = 0.

Lemma total_group_step (acc : gmap string Summary) :
  total (group_step acc resource) = total acc + gain.
Proof.
  unfold group_step. destruct (acc !! type resource) as [s|] eqn:Hs.
  - rewrite (total_delete _ _ _ Hs).
    rewrite <- (insert_delete_id acc (type resource) s Hs) at 1.
    rewrite alter_insert_eq, total_insert by apply lookup_delete_eq.
    rewrite weight_step. lia.
  - rewrite alter_insert_eq, total_insert by exact Hs.
    rewrite weight_step, weight_empty. lia.
Qed.

End BucketTotals.

Lemma bucket_counts_fold (rs : list ResourceEntry) :
  bucket_counts (fold_left group_step rs ∅) = len rs.
Proof.
  induction rs as [|r rs IH] using rev_ind; [reflexivity|].
  rewrite fold_left_app. cbn [fold_left]. unfold bucket_counts in *.
  rewrite (total_group_step count r 1); [rewrite IH, len_snoc; reflexivity | | ];
    intros; reflexivity.
Qed.

Lemma bucket_sizes_fold (rs : list ResourceEntry) :
  bucket_sizes (fold_left group_step rs ∅) = total_size rs.
Proof.
  induction rs as [|r rs IH] using rev_ind; [reflexivity|].
  rewrite fold_left_app. cbn [fold_left]. unfold bucket_sizes in *.
  rewrite (total_group_step totalSize r (rsize r));
    [rewrite IH, total_size_snoc; reflexivity | | ]; intros; reflexivity.
Qed.

(** X13. Grouping loses and duplicates nothing: when resource timing is
    available, the counts of the buckets that [measureResources] stores
    add up to the number of entries, and their totalSize fields add up to
    the sum of the entries' transfer sizes, an entry without a transfer
    size counting as 0. *)
Theorem resource_totals_conserved (w : Window) (m : Metrics)
    (entries : list PerformanceResourceTiming) :
  performance_entries w = Some entries →
  ∃ summary : gmap string Summary,
    resourceSummary (fst (measureResources w m)) = Some summary
    ∧ bucket_counts summary = len entries
    ∧ bucket_sizes summary
      = fold_right Z.add 0
          (map (fun e => match transferSize e with
                         | Some n => n
                         | None => 0
                         end) entries).
Proof.
  intros Hp. unfold measureResources. rewrite Hp. cbn [fst resourceSummary].
  eexists. split; [reflexivity|]. split.
  - unfold bucket_counts. rewrite map_fold_fmap.
    change (map_fold _ 0 ?x) with (bucket_counts x).
    rewrite bucket_counts_fold. unfold len. now rewrite length_map.
  - unfold bucket_sizes. rewrite map_fold_fmap.
    change (map_fold _ 0 ?x) with (bucket_sizes x).
    rewrite bucket_sizes_fold. unfold total_size. rewrite map_map.
    f_equal. apply map_ext. intros e. unfold to_entry, size_or_zero.
    cbn [rsize]. destruct (transferSize e) as [n|]; [|reflexivity].
    destruct (n =? 0)%Z eqn:E; [apply Z.eqb_eq in E; now subst | reflexivity].
Qed.

Lemma resource_totals_conserved_witness :
  ∃ summary : gmap string Summary,
    resourceSummary (fst (measureResources two_scripts empty_metrics))
    = Some summary
    ∧ bucket_counts summary = 2
    ∧ bucket_sizes summary = 30.
Proof.
  apply (resource_totals_conserved two_scripts empty_metrics
           [script_entry "a.js" 100 10; script_entry "b.js" 300 20]).
  reflexivity.
Defined.

(** ** The sampler on arbitrary frame sequences *)

Lemma measureFPS_snoc (duration : Q) (ts : list Q) (t : Q) (m : Metrics) :
  measureFPS duration (ts ++ [t]) m
  = animation_frame duration (measureFPS duration ts m) t.
Proof. unfold measureFPS. now rewrite fold_left_app. Qed.

(** X14. Whatever the duration and the timestamps, the sampler resolves
    its promise at most once.  While it is pending it has counted every
    frame delivered so far and has not touched the store; once resolved it
    is no longer queued, the store's fps entry holds the resolved value,
    and that value is [round(frames * 1000 / duration)] for the number of
    frames counted, which is at least 1. *)
Theorem sampler_resolves_at_most_once (duration : Q) (ts : list Q) (m : Metrics) :
  let s := fst (measureFPS duration ts m) in
  let m' := snd (measureFPS duration ts m) in
  (resolved s = [] ∧ scheduled s = true ∧ m' = m ∧ frames s = len ts)
  ∨ (∃ v, resolved s = [v] ∧ scheduled s = false ∧ m' = set_fps m v
          ∧ v = Math_round (div (int (frames s * 1000)) (Num duration))
          ∧ 1 ≤ frames s ≤ len ts).
Proof.
  cbv zeta. induction ts as [|t ts IH] using rev_ind.
  - left. repeat split.
  - rewrite measureFPS_snoc, len_snoc.
    destruct (measureFPS duration ts m) as [s m'].
    cbn [fst snd] in IH.
    destruct IH as [(Hr & Hs & Hm & Hf) | (v & Hr & Hs & Hm & Hv & Hf)].
    + unfold animation_frame. cbn [fst snd]. rewrite Hs. unfold measureFrame.
      cbn [frames startTime scheduled resolved].
      destruct (Qlt_bool _ duration); cbn [fst snd frames scheduled resolved].
      * left. rewrite Hr, Hm, Hf. repeat split.
      * right. eexists. rewrite Hr, Hm, Hf.
        assert (0 ≤ len ts) by (unfold len; lia).
        split; [reflexivity|]. split; [reflexivity|]. split; [reflexivity|].
        split; [reflexivity | lia].
    + unfold animation_frame. cbn [fst snd]. rewrite Hs.
      right. exists v. cbn [fst snd].
      split; [exact Hr|]. split; [exact Hs|]. split; [exact Hm|].
      split; [exact Hv | lia].
Qed.

Lemma measureFPS_sampler (duration : Q) (ts : list Q) (m m' : Metrics) :
  fst (measureFPS duration ts m) = fst (measureFPS duration ts m').
Proof.
  induction ts as [|t ts IH] using rev_ind; [reflexivity|].
  rewrite !measureFPS_snoc.
  destruct (measureFPS duration ts m) as [s m1],
    (measureFPS duration ts m') as [s' m2].
  cbn [fst] in IH. subst s'. unfold animation_frame. cbn [fst snd].
  destruct (scheduled s); [|reflexivity]. unfold measureFrame.
  cbn [frames startTime scheduled resolved].
  destruct (Qlt_bool _ duration); reflexivity.
Qed.

Lemma start_unset_zero (z : Q) : (z == 0)%Q → start_unset (Some z) = true.
Proof. intros Hz. unfold start_unset. now apply Qeq_bool_iff. Qed.

(** A frame that arrives while the start is unset (or 0) starts the
    window at its own timestamp. *)
Lemma frame_unset (duration : Q) (n : Z) (start : option Q)
    (r : list number) (m : Metrics) (t : Q) :
  start_unset start = true →
  animation_frame duration
    ({| frames := n; startTime := start; scheduled := true; resolved := r |}, m) t
  = if Qlt_bool (t - t) duration then
      ({| frames := n + 1; startTime := Some t; scheduled := true;
          resolved := r |}, m)
    else
      let fps := Math_round (div (int ((n + 1) * 1000)) (Num duration)) in
      ({| frames := n + 1; startTime := Some t; scheduled := false;
          resolved := r ++ [fps] |}, set_fps m fps).
Proof.
  intros Hs. unfold animation_frame, measureFrame.
  cbn [fst snd scheduled frames startTime resolved]. now rewrite Hs.
Qed.

Lemma self_inside (duration t : Q) :
  (0 < duration)%Q → Qlt_bool (t - t) duration = true.
Proof. intros Hd. apply Qlt_bool_true. lra. Qed.

Lemma zero_frames (duration : Q) (zeros : list Q) :
  (0 < duration)%Q →
  Forall (fun z => (z == 0)%Q) zeros →
  ∀ (n : Z) (start : option Q) (m : Metrics),
    start_unset start = true →
    ∃ start', start_unset start' = true
      ∧ fold_left (animation_frame duration) zeros
          ({| frames := n; startTime := start; scheduled := true;
              resolved := [] |}, m)
        = ({| frames := n + len zeros; startTime := start'; scheduled := true;
              resolved := [] |}, m).
Proof.
  intros Hd. induction 1 as [|z zeros Hz _ IH]; intros n start m Hs.
  - exists start. split; [exact Hs|]. cbn [fold_left]. unfold len. simpl length.
    now rewrite Z.add_0_r.
  - cbn [fold_left]. rewrite frame_unset by exact Hs.
    rewrite self_inside by exact Hd.
    destruct (IH (n + 1) (Some z) m (start_unset_zero z Hz))
      as (start' & Hs' & ->).
    exists start'. split; [exact Hs'|].
    replace (n + len (z :: zeros)) with (n + 1 + len zeros); [reflexivity|].
    unfold len. simpl length. lia.
Qed.

Lemma resolves_from_unset (duration : Q) (inside : list Q) (t : Q)
    (after : list Q) (n : Z) (start : option Q) (m : Metrics) :
  let t0 := hd t inside in
  let fps := Math_round (div (int ((n + len inside + 1) * 1000)) (Num duration)) in
  start_unset start = true →
  ¬ (t0 == 0)%Q →
  Forall (fun x => (x - t0 < duration)%Q) inside →
  (duration <= t - t0)%Q →
  fold_left (animation_frame duration) (inside ++ t :: after)
    ({| frames := n; startTime := start; scheduled := true; resolved := [] |}, m)
  = ({| frames := n + len inside + 1; startTime := Some t0; scheduled := false;
        resolved := [fps] |}, set_fps m fps).
Proof.
  cbv zeta. intros Hs Hnz Hin Ht. destruct inside as [|t0 inside].
  - cbn [hd app fold_left] in *. rewrite frame_unset by exact Hs.
    apply Qlt_bool_false in Ht. rewrite Ht. cbv zeta.
    rewrite frames_after_resolve by reflexivity.
    unfold len. simpl length. now rewrite Z.add_0_r.
  - cbn [hd] in *. inversion Hin as [|? ? Ht0 Hrest]; subst.
    rewrite <- app_comm_cons. cbn [fold_left].
    rewrite frame_unset by exact Hs.
    apply Qlt_bool_true in Ht0. rewrite Ht0.
    rewrite fold_left_app, (frames_inside duration t0 Hnz) by exact Hrest.
    cbn [fold_left]. rewrite (frame_closing duration t0 Hnz) by exact Ht.
    cbv zeta. rewrite frames_after_resolve by reflexivity.
    replace (n + len (t0 :: inside) + 1) with (n + 1 + len inside + 1);
      [reflexivity|].
    unfold len. simpl length. lia.
Qed.

(** X15. Callbacks whose timestamp is 0 do not start the window.  With a
    positive duration, any number of leading callbacks at timestamp 0 are
    counted as frames, the window then starts at the first non-zero
    timestamp, and the promise resolves at the first callback at least
    [duration] after that one, with all the frames counted so far. *)
Theorem sampler_leading_zeros (duration : Q) (zeros inside : list Q) (t : Q)
    (after : list Q) (m : Metrics) :
  let t0 := hd t inside in
  let counted := len zeros + len inside + 1 in
  let fps := Math_round (div (int (counted * 1000)) (Num duration)) in
  (0 < duration)%Q →
  Forall (fun z => (z == 0)%Q) zeros →
  ¬ (t0 == 0)%Q →
  Forall (fun x => (x - t0 < duration)%Q) inside →
  (duration <= t - t0)%Q →
  measureFPS duration (zeros ++ inside ++ t :: after) m
  = ({| frames := counted; startTime := Some t0; scheduled := false;
        resolved := [fps] |}, set_fps m fps).
Proof.
  cbv zeta. intros Hd Hz Hnz Hin Ht. unfold measureFPS.
  rewrite fold_left_app.
  destruct (zero_frames duration zeros Hd Hz 0 None m eq_refl)
    as (start' & Hs' & ->).
  rewrite Z.add_0_l.
  now rewrite (resolves_from_unset duration inside t after (len zeros) start' m Hs').
Qed.

Lemma sampler_leading_zeros_witness :
  measureFPS 1000 ([0; 0] ++ [600; 1200] ++ 1700 :: [1800])%Q empty_metrics
  = ({| frames := 5; startTime := Some 600%Q; scheduled := false;
        resolved := [int 5] |}, set_fps empty_metrics (int 5)).
Proof.
  apply (sampler_leading_zeros 1000 [0; 0]%Q [600; 1200]%Q 1700%Q [1800]%Q
           empty_metrics).
  - reflexivity.
  - repeat constructor.
  - discriminate.
  - repeat constructor.
  - discriminate.
Defined.

(** X16. With a duration that is zero or negative, the sampler resolves
    at the very first callback, having counted one frame, with
    [round(1000 / duration)]; for duration 0 that value is Infinity. *)
Theorem sampler_nonpositive_duration (duration t0 : Q) (rest : list Q)
    (m : Metrics) :
  (duration <= 0)%Q →
  let fps := Math_round (div (int 1000) (Num duration)) in
  measureFPS duration (t0 :: rest) m
  = ({| frames := 1; startTime := Some t0; scheduled := false;
        resolved := [fps] |}, set_fps m fps)
  ∧ ((duration == 0)%Q → fps = PosInf).
Proof.
  intros Hd. cbv zeta. split.
  - unfold measureFPS. cbn [fold_left]. rewrite first_frame.
    assert (Qlt_bool (t0 - t0) duration = false) as ->
      by (apply Qlt_bool_false; lra).
    cbv zeta. now rewrite frames_after_resolve.
  - intros H0. unfold div, int. apply Qeq_bool_iff in H0. now rewrite H0.
Qed.

Lemma sampler_nonpositive_duration_witness :
  measureFPS 0 [16; 33]%Q empty_metrics
  = ({| frames := 1; startTime := Some 16%Q; scheduled := false;
        resolved := [PosInf] |}, set_fps empty_metrics PosInf).
Proof.
  apply (sampler_nonpositive_duration 0 16 [33]%Q empty_metrics).
  discriminate.
Defined.

(** ** The full test run *)

Lemma tester_measureFPS_resolved (duration : Q) (ts : list Q) (t : Tester)
    (v : number) :
  resolved (fst (measureFPS duration ts empty_metrics)) = [v] →
  tester_measureFPS duration ts t
  = Returns ({| metrics := set_fps (metrics t) v; pageLoad := pageLoad t;
                memory := memory t; tester_startTime := tester_startTime t |}, v).
Proof.
  intros Hv. unfold tester_measureFPS.
  pose proof (sampler_resolves_at_most_once duration ts (metrics t)) as Hs.
  cbv zeta in Hs.
  rewrite (measureFPS_sampler duration ts empty_metrics (metrics t)) in Hv.
  destruct (measureFPS duration ts (metrics t)) as [s m']. cbn [fst snd] in *.
  destruct Hs as [(Hr & _) | (v' & Hr & _ & Hm & _)]; [congruence|].
  rewrite Hr in Hv |- *. inversion Hv; subst. reflexivity.
Qed.

Lemma tester_measureFPS_pending (duration : Q) (ts : list Q) (t : Tester) :
  resolved (fst (measureFPS duration ts empty_metrics)) = [] →
  tester_measureFPS duration ts t = Pending.
Proof.
  intros Hv. unfold tester_measureFPS.
  rewrite (measureFPS_sampler duration ts empty_metrics (metrics t)) in Hv.
  destruct (measureFPS duration ts (metrics t)) as [s m']. cbn [fst] in Hv.
  now rewrite Hv.
Qed.

Lemma calculateScores_audit (m m' : Metrics) :
  audit m = audit m' → calculateScores m = calculateScores m'.
Proof. intros H. unfold calculateScores. now rewrite H. Qed.

Lemma generateRecommendations_audit (m m' : Metrics) :
  audit m = audit m' → generateRecommendations m = generateRecommendations m'.
Proof. intros H. unfold generateRecommendations. now rewrite H. Qed.

Lemma full_test_run (h : Host) (now : string) (ts : list Q) (t : Tester)
    (v : number) (entries : list PerformanceResourceTiming)
    (recs : list string) :
  performance_entries (host_window h) = Some entries →
  resolved (fst (measureFPS 1000 ts empty_metrics)) = [v] →
  page_recommendations (host_window h) empty_metrics = Some recs →
  let w := host_window h in
  let timing := timing h in
  let t' :=
    {| metrics :=
         fst (runAudit w
                (set_fps (fst (measureResources w (metrics t))) v));
       pageLoad := Some
         {| dns := domainLookupEnd timing - domainLookupStart timing;
            tcp := connectEnd timing - connectStart timing;
            ttfb := responseStart timing - requestStart timing;
            domContentLoaded :=
              domContentLoadedEventEnd timing - navigationStart timing;
            fullLoad := loadEventEnd timing - navigationStart timing |};
       memory :=
         match performance_memory h with
         | Some mem =>
             Some {| usedJSHeapSize := usedJSHeapSize mem;
                     totalJSHeapSize := totalJSHeapSize mem;
                     jsHeapSizeLimit := jsHeapSizeLimit mem |}
         | None => memory t
         end;
       tester_startTime := tester_startTime t |} in
  runFullTest h now ts t
  = Returns ({| timestamp := now; url := location_href h; report_metrics := t';
                scores := calculateScores (fst (runAudit w empty_metrics));
                recommendations := recs |}, t').
Proof.
  intros Hp Hv Hrecs. cbv zeta.
  unfold runFullTest, measurePageLoad, tester_measureResources, measureMemory,
    has_performance.
  rewrite Hp.
  cbn [mbind outcome_bind metrics pageLoad memory tester_startTime fst snd].
  destruct (measureResources (host_window h) (metrics t)) as [m1 r1].
  cbn [mbind outcome_bind metrics pageLoad memory tester_startTime fst snd].
  assert (∀ t2 : Tester,
            tester_measureFPS 1000 ts t2
            = Returns ({| metrics := set_fps (metrics t2) v;
                          pageLoad := pageLoad t2; memory := memory t2;
                          tester_startTime := tester_startTime t2 |}, v)) as Hfps
    by (intros; now apply tester_measureFPS_resolved).
  unfold page_recommendations in Hrecs.
  destruct (performance_memory h) as [mem|];
    rewrite Hfps;
    cbn [mbind outcome_bind metrics pageLoad memory tester_startTime fst snd];
    unfold tester_runAudit, generateReport;
    cbn [metrics pageLoad memory tester_startTime fst snd runAudit];
    (erewrite generateRecommendations_audit; [rewrite Hrecs | reflexivity]);
    cbn [mbind outcome_bind]; reflexivity.
Qed.

Lemma expected_recommendations_length (io css alt_ meta : AuditResult) :
  (length (expected_recommendations io css alt_ meta) ≤ 4)%nat.
Proof.
  unfold expected_recommendations. rewrite length_map.
  etransitivity; [apply List.filter_length_le | reflexivity].
Qed.

(** X17. On a host with [performance], if the animation frames resolve
    the sampler with [v], [runFullTest] returns a report that holds the
    tester's own store, the given time and the page's address; afterwards
    the store has pageLoad, resources, resourceSummary and audit entries,
    its fps entry is [v], and its memory entry is the host's heap
    statistics when the host has them and is left as it was otherwise. *)
Theorem full_test_completes (h : Host) (now : string) (ts : list Q)
    (t : Tester) (v : number) :
  has_performance h = true →
  resolved (fst (measureFPS 1000 ts empty_metrics)) = [v] →
  ∃ (report : Report) (t' : Tester),
    runFullTest h now ts t = Returns (report, t')
    ∧ report_metrics report = t'
    ∧ timestamp report = now
    ∧ url report = location_href h
    ∧ fps (metrics t') = Some v
    ∧ is_Some (pageLoad t')
    ∧ is_Some (resources (metrics t'))
    ∧ is_Some (resourceSummary (metrics t'))
    ∧ is_Some (audit (metrics t'))
    ∧ match performance_memory h with
      | Some mem => memory t' = Some mem
      | None => memory t' = memory t
      end.
Proof.
  intros Hp Hv. unfold has_performance in Hp.
  destruct (performance_entries (host_window h)) as [entries|] eqn:He;
    [|discriminate].
  pose proof (full_test_run h now ts t v entries _ He Hv
                (page_recommendations_eq (host_window h) empty_metrics)) as Hrun.
  cbv zeta in Hrun. do 2 eexists. split; [exact Hrun|].
  cbn [report_metrics timestamp url metrics pageLoad memory].
  unfold measureResources. rewrite He.
  cbn [fst runAudit set_fps fps resources resourceSummary audit].
  repeat (split; [solve [reflexivity | eexists; reflexivity]|]).
  destruct (performance_memory h) as [[u tot lim]|]; reflexivity.
Qed.

Lemma full_test_completes_witness :
  ∃ (report : Report) (t' : Tester),
    runFullTest (host_of two_scripts) "2024-01-01T00:00:00.000Z"
      [100; 600; 1200]%Q new_tester = Returns (report, t')
    ∧ report_metrics report = t'
    ∧ timestamp report = "2024-01-01T00:00:00.000Z"
    ∧ url report = "https://example.org/"
    ∧ fps (metrics t') = Some (int 3)
    ∧ is_Some (pageLoad t')
    ∧ is_Some (resources (metrics t'))
    ∧ is_Some (resourceSummary (metrics t'))
    ∧ is_Some (audit (metrics t'))
    ∧ memory t' = None.
Proof.
  apply (full_test_completes (host_of two_scripts) "2024-01-01T00:00:00.000Z"
           [100; 600; 1200]%Q new_tester (int 3)); reflexivity.
Defined.

(** X18. The scores and recommendations of a completed full test are
    those of auditing the page alone: they do not depend on the timing,
    resource, memory or frame measurements, nor on what the store held
    before.  All five scores are integers between 0 and 100 and there are
    at most four recommendations. *)
Theorem full_test_report_of_page (h : Host) (now : string) (ts : list Q)
    (t : Tester) (report : Report) (t' : Tester) :
  runFullTest h now ts t = Returns (report, t') →
  scores report = calculateScores (fst (runAudit (host_window h) empty_metrics))
  ∧ page_recommendations (host_window h) empty_metrics
    = Some (recommendations report)
  ∧ Forall percent (score_list (scores report))
  ∧ (length (recommendations report) ≤ 4)%nat.
Proof.
  intros Hrun.
  assert (scores report
          = calculateScores (fst (runAudit (host_window h) empty_metrics))
          ∧ page_recommendations (host_window h) empty_metrics
            = Some (recommendations report)) as [Hs Hr].
  { unfold runFullTest, measurePageLoad, tester_measureResources, measureMemory
      in Hrun.
    destruct (has_performance h);
      cbn [mbind outcome_bind metrics pageLoad memory tester_startTime fst snd]
        in Hrun;
      destruct (measureResources (host_window h) (metrics t)) as [m1 r1];
      cbn [mbind outcome_bind metrics pageLoad memory tester_startTime fst snd]
        in Hrun;
      [|discriminate Hrun].
    destruct (tester_measureFPS 1000 ts _) as [[t4 v]| |];
      try discriminate Hrun.
    cbn [mbind outcome_bind] in Hrun.
    unfold tester_runAudit, generateReport in Hrun.
    cbn [metrics pageLoad memory tester_startTime fst snd runAudit] in Hrun.
    pose proof (page_recommendations_eq (host_window h) empty_metrics) as He.
    unfold page_recommendations in *.
    erewrite generateRecommendations_audit in Hrun; [rewrite He in Hrun | reflexivity].
    cbn [mbind outcome_bind] in Hrun. inversion Hrun; subst.
    cbn [scores recommendations]. split; [reflexivity | exact He]. }
  split; [exact Hs|]. split; [exact Hr|]. split.
  - rewrite Hs. apply audited_scores_in_range.
  - rewrite page_recommendations_eq in Hr. inversion Hr as [Hr'].
    apply expected_recommendations_length.
Qed.

Lemma full_test_report_of_page_witness :
  ∃ (report : Report) (t' : Tester),
    runFullTest (host_of two_scripts) "2024-01-01T00:00:00.000Z"
      [100; 600; 1200]%Q new_tester = Returns (report, t')
    ∧ Forall percent (score_list (scores report))
    ∧ (length (recommendations report) ≤ 4)%nat.
Proof.
  do 2 eexists. split; [reflexivity|].
  match goal with
  | |- Forall percent (score_list (scores ?r)) ∧ _ =>
      destruct (full_test_report_of_page (host_of two_scripts)
                  "2024-01-01T00:00:00.000Z" [100; 600; 1200]%Q new_tester
                  r _ eq_refl) as (_ & _ & H1 & H2)
  end.
  split; [exact H1 | exact H2].
Defined.

(** X19. On a host with [performance], if the animation frames delivered
    do not resolve the sampler (in particular if no frame is ever
    delivered), [runFullTest] never completes: no report is produced. *)
Theorem full_test_pending (h : Host) (now : string) (ts : list Q) (t : Tester) :
  has_performance h = true →
  resolved (fst (measureFPS 1000 ts empty_metrics)) = [] →
  runFullTest h now ts t = Pending.
Proof.
  intros Hp Hv.
  unfold runFullTest, measurePageLoad, tester_measureResources, measureMemory.
  rewrite Hp.
  cbn [mbind outcome_bind metrics pageLoad memory tester_startTime fst snd].
  destruct (measureResources (host_window h) _) as [m1 r1].
  cbn [mbind outcome_bind metrics pageLoad memory tester_startTime fst snd].
  now rewrite tester_measureFPS_pending.
Qed.

Lemma full_test_pending_witness :
  runFullTest (host_of two_scripts) "2024-01-01T00:00:00.000Z" [] new_tester
  = Pending
  ∧ runFullTest (host_of two_scripts) "2024-01-01T00:00:00.000Z"
      [100; 600; 900]%Q new_tester = Pending.
Proof.
  split; apply full_test_pending; reflexivity.
Defined.

(** X20. The guards on [performance] are uneven.  On a host without it,
    the constructor throws, so no tester can be built; [measurePageLoad]
    and [measureResources] would return with the store unchanged, but
    [measureMemory] throws, and so does [runFullTest]. *)
Theorem no_performance (h : Host) (now : string) (ts : list Q) (t : Tester) :
  has_performance h = false →
  new_PerformanceTester h = Throws
  ∧ measurePageLoad h t = (t, pageLoad t)
  ∧ tester_measureResources h t = (t, resources (metrics t))
  ∧ measureMemory h t = Throws
  ∧ runFullTest h now ts t = Throws.
Proof.
  intros Hp.
  unfold new_PerformanceTester, runFullTest, measurePageLoad,
    tester_measureResources, measureMemory, measureResources.
  rewrite Hp. unfold has_performance in Hp.
  destruct (performance_entries (host_window h)); [discriminate|].
  destruct t as [m pl mem st]. repeat split.
Qed.

Lemma no_performance_witness :
  new_PerformanceTester (host_of (page [])) = Throws
  ∧ measurePageLoad (host_of (page [])) new_tester = (new_tester, None)
  ∧ tester_measureResources (host_of (page [])) new_tester = (new_tester, None)
  ∧ measureMemory (host_of (page [])) new_tester = Throws
  ∧ runFullTest (host_of (page [])) "2024-01-01T00:00:00.000Z" [16]%Q new_tester
    = Throws.
Proof.
  apply (no_performance (host_of (page [])) "2024-01-01T00:00:00.000Z"
           [16]%Q new_tester).
  reflexivity.
Defined.

(** ** The image scanner's suggestions *)

Lemma len_eqb_zero {A} (l : list A) :
  (len l =? 0) = match l with [] => true | _ => false end.
Proof.
  destruct l; [reflexivity|]. unfold len. simpl length. apply Z.eqb_neq. lia.
Qed.

(** X21. [suggestOptimization] never returns an empty list and never more
    than two suggestions.  The note that the image is already optimized
    is only ever the sole suggestion, and it is given exactly when the
    file is at most 1 MiB, is not a .jpg or .jpeg, and is not a .png
    above 500 KiB. *)
Theorem suggestions_shape (image : ImageFile) :
  let s := suggestOptimization image in
  s ≠ []
  ∧ (length s ≤ 2)%nat
  ∧ (In suggest_nothing s → s = [suggest_nothing])
  ∧ (s = [suggest_nothing]
     ↔ img_size image ≤ 1024 * 1024
       ∧ extension image ≠ ".jpg" ∧ extension image ≠ ".jpeg"
       ∧ (extension image = ".png" → img_size image ≤ 500 * 1024)).
Proof.
  cbv zeta. unfold suggestOptimization. cbv zeta. rewrite len_eqb_zero.
  destruct (img_size image >? 1024 * 1024) eqn:Ebig;
    destruct (img_size image >? 500 * 1024) eqn:Emid;
    destruct (String.eqb_spec (extension image) ".png") as [Hpng|Hpng];
    destruct (String.eqb_spec (extension image) ".jpg") as [Hjpg|Hjpg];
    destruct (String.eqb_spec (extension image) ".jpeg") as [Hjpeg|Hjpeg];
    try (rewrite Hpng in Hjpg; discriminate Hjpg);
    try (rewrite Hpng in Hjpeg; discriminate Hjpeg);
    try (rewrite Hjpg in Hjpeg; discriminate Hjpeg);
    cbn [andb orb push_if app];
    unfold suggest_resize, suggest_webp, suggest_quality, suggest_nothing;
    (split; [discriminate|]); (split; [cbn [length]; lia|]);
    (split; [cbn [In]; intros H;
             repeat (destruct H as [H|H]; try discriminate H);
             try contradiction; reflexivity|]);
    (split; [intros H; try discriminate H | intros (H1 & H2 & H3 & H4)]);
    try reflexivity; try congruence; try lia;
    try (repeat split; (congruence || lia));
    try (specialize (H4 Hpng); lia).
Qed.

Lemma suggestions_shape_witness :
  suggestOptimization small_gif = [suggest_nothing].
Proof.
  destruct (suggestions_shape small_gif) as (_ & _ & _ & H).
  apply H. unfold small_gif. cbn [img_size extension].
  repeat split; (discriminate || lia).
Defined.

(** ** Missing checks and unfinished loads *)

(** X22. With an audit stored, [generateRecommendations] throws exactly
    when one of the four checks it reads (imageOptimization and cssSize
    under performance, altTags under accessibility, metaTags under seo) is
    missing from the audit; [generateReport] then throws as well. *)
Theorem recommendations_throw (h : Host) (now : string) (t : Tester) (a : Audit) :
  audit (metrics t) = Some a →
  (generateRecommendations (metrics t) = None
   ↔ assoc "imageOptimization" (performance a) = None
     ∨ assoc "cssSize" (performance a) = None
     ∨ assoc "altTags" (accessibility a) = None
     ∨ assoc "metaTags" (seo a) = None)
  ∧ (generateReport h now t = Throws
     ↔ generateRecommendations (metrics t) = None).
Proof.
  intros Ha. split.
  - unfold generateRecommendations. rewrite Ha.
    destruct (assoc "imageOptimization" (performance a)),
      (assoc "cssSize" (performance a)),
      (assoc "altTags" (accessibility a)),
      (assoc "metaTags" (seo a)); simpl; split; intros H;
      try discriminate H; auto;
      repeat (destruct H as [H|H]; try discriminate H).
  - unfold generateReport.
    destruct (generateRecommendations (metrics t)); split; intros H;
      (reflexivity || discriminate H).
Qed.

Lemma recommendations_throw_witness :
  generateRecommendations (with_audit audit_without_css) = None
  ∧ generateReport (host_of (page [])) "2024-01-01T00:00:00.000Z"
      {| metrics := with_audit audit_without_css; pageLoad := None;
         memory := None; tester_startTime := 0 |} = Throws.
Proof.
  destruct (recommendations_throw (host_of (page [])) "2024-01-01T00:00:00.000Z"
              {| metrics := with_audit audit_without_css; pageLoad := None;
                 memory := None; tester_startTime := 0 |}
              audit_without_css eq_refl) as [H1 H2].
  assert (generateRecommendations (with_audit audit_without_css) = None) as Hn.
  { apply H1. right. left. reflexivity. }
  split; [exact Hn | apply H2; exact Hn].
Defined.


